(** * Local playlists plugin of ultrasonics ([up_local playlists.py])

    A shallow embedding of the plugin's [run] function: the path
    translation helpers ([remove_prepend], [convert_path]), the playlist
    catalog scan, the read pipeline (component "inputs"), the backup
    manager ([backup_playlists]) and the write pipeline (component
    "outputs"), followed by the properties of the design document.

    Conventions of the embedding.
    - A Python [str] is a [string]; its characters are the 8-bit
      characters of [ascii].
    - The library calls of the source ([str.replace], [str.lstrip],
      [os.path.join], [os.listdir], [shutil.copytree], ...) are modelled
      by functions named after them; [os.path] is [posixpath].
    - The file system is a finite map from paths (lists of components) to
      nodes; a call that raises in Python returns [Raise e].
    - Logging ([log.info], [log.debug], ...) and the progress bar
      ([tqdm]) have no effect on the results and are left out. *)

From Stdlib Require Import String Ascii.
From Stdlib Require OrderedTypeEx.
From stdpp Require Import base option list strings gmap sorting.

(** ** Python string methods *)

Module Py.

(** [c in chars] for a character [c]. *)
Fixpoint char_in (c : ascii) (chars : string) : bool :=
  match chars with
  | EmptyString => false
  | String d chars' => if Ascii.eqb c d then true else char_in c chars'
  end.

(** [s.startswith(p)] *)
Fixpoint startswith (s p : string) {struct p} : bool :=
  match p with
  | EmptyString => true
  | String a p' =>
      match s with
      | EmptyString => false
      | String b s' => if Ascii.eqb a b then startswith s' p' else false
      end
  end.

(** [s.endswith(p)] for a one-character [p] (the only use in
    [posixpath.join]). *)
Fixpoint endswith_char (s : string) (c : ascii) : bool :=
  match s with
  | EmptyString => false
  | String a EmptyString => Ascii.eqb a c
  | String _ s' => endswith_char s' c
  end.

(** [s.lstrip(chars)]: drop the leading characters that occur in [chars]. *)
Fixpoint lstrip (s chars : string) : string :=
  match s with
  | EmptyString => EmptyString
  | String c s' => if char_in c chars then lstrip s' chars else s
  end.

(** [s.rstrip(chars)]: drop the trailing characters that occur in [chars]. *)
Fixpoint rstrip (s chars : string) : string :=
  match s with
  | EmptyString => EmptyString
  | String c s' =>
      match rstrip s' chars with
      | EmptyString => if char_in c chars then EmptyString else String c EmptyString
      | r => String c r
      end
  end.

(** [s.replace(old, new)]: the occurrences of [old] are found from left to
    right and do not overlap.  [skip] counts the characters of an
    occurrence that was just replaced and are still to be dropped.  For
    an empty [old] Python inserts [new] before every character and at the
    end. *)
Fixpoint replace_from (skip : nat) (s old new : string) : string :=
  match s with
  | EmptyString =>
      match old with EmptyString => new | _ => EmptyString end
  | String c s' =>
      match skip with
      | S k => replace_from k s' old new
      | O =>
          if startswith s old
          then new +:+ match old with
                       | EmptyString => String c (replace_from 0 s' old new)
                       | String _ old' => replace_from (String.length old') s' old new
                       end
          else String c (replace_from 0 s' old new)
      end
  end.

Definition replace (s old new : string) : string := replace_from 0 s old new.

(** [old in s] (substring test). *)
Fixpoint contains (s old : string) : bool :=
  startswith s old ||
  match s with
  | EmptyString => false
  | String _ s' => contains s' old
  end.

(** [s.split(sep)] for a one-character separator: never empty. *)
Fixpoint split (s : string) (sep : ascii) : list string :=
  match s with
  | EmptyString => [EmptyString]
  | String c s' =>
      if Ascii.eqb c sep then EmptyString :: split s' sep
      else match split s' sep with
           | x :: r => String c x :: r
           | [] => [String c EmptyString]
           end
  end.

(** [s.rfind(c)] for a one-character [c]: the index of the last
    occurrence, [-1] when there is none. *)
Fixpoint rfind_from (i : Z) (s : string) (c : ascii) : Z :=
  match s with
  | EmptyString => (-1)%Z
  | String a s' =>
      let r := rfind_from (i + 1) s' c in
      if (0 <=? r)%Z then r else if Ascii.eqb a c then i else (-1)%Z
  end.

Definition rfind (s : string) (c : ascii) : Z := rfind_from 0 s c.

(** The slices [s[:i]] and [s[i:]] for [0 <= i]. *)
Definition slice_to (s : string) (i : Z) : string :=
  String.substring 0 (Z.to_nat i) s.
Definition slice_from (s : string) (i : Z) : string :=
  String.substring (Z.to_nat i) (String.length s - Z.to_nat i) s.

(** Line boundaries of [str.splitlines] among the characters modelled. *)
Definition is_linebreak (c : ascii) : bool :=
  let n := nat_of_ascii c in
  Nat.eqb n 10 || Nat.eqb n 11 || Nat.eqb n 12 || Nat.eqb n 13
  || Nat.eqb n 28 || Nat.eqb n 29 || Nat.eqb n 30 || Nat.eqb n 133.

(** [s.splitlines()]: the lines without their terminators; "\r\n" is one
    terminator, and a final terminator opens no further line. *)
Fixpoint splitlines (s : string) : list string :=
  match s with
  | EmptyString => []
  | String c s' =>
      if is_linebreak c then
        match s' with
        | String d s'' =>
            if Nat.eqb (nat_of_ascii c) 13 && Nat.eqb (nat_of_ascii d) 10
            then EmptyString :: splitlines s''
            else EmptyString :: splitlines s'
        | EmptyString => [EmptyString]
        end
      else match splitlines s' with
           | x :: r => String c x :: r
           | [] => [String c EmptyString]
           end
  end.

(** [sep.join(l)] *)
Fixpoint join (sep : string) (l : list string) : string :=
  match l with
  | [] => EmptyString
  | x :: l' =>
      match l' with
      | [] => x
      | _ => x +:+ sep +:+ join sep l'
      end
  end.

End Py.

(** ** [os.path] (posixpath) *)

Module OsPath.

Definition is_empty (s : string) : bool :=
  match s with EmptyString => true | _ => false end.

(** [posixpath.join(a, b)]: an absolute [b] discards [a]; a separator is
    inserted unless [a] is empty or already ends with one. *)
Definition join2 (a b : string) : string :=
  if Py.startswith b "/" then b
  else if is_empty a || Py.endswith_char a "/" then a +:+ b
  else a +:+ "/" +:+ b.

(** [posixpath.join(a, *p)] *)
Definition join (a : string) (p : list string) : string := foldl join2 a p.

(** [genericpath._splitext]: the extension starts at the last dot of the
    last component, unless that component has only leading dots before
    it. *)
Definition splitext (p : string) : string * string :=
  let sepIndex := Py.rfind p "/" in
  let dotIndex := Py.rfind p "." in
  if (sepIndex <? dotIndex)%Z then
    if existsb
         (fun i => match String.get (Z.to_nat i) p with
                   | Some c => negb (Ascii.eqb c ".")
                   | None => false
                   end)
         (seqZ (sepIndex + 1) (dotIndex - (sepIndex + 1)))
    then (Py.slice_to p dotIndex, Py.slice_from p dotIndex)
    else (p, EmptyString)
  else (p, EmptyString).

(** [posixpath.dirname(p)] *)
Definition dirname (p : string) : string :=
  let i := (Py.rfind p "/" + 1)%Z in
  let head := Py.slice_to p i in
  if negb (is_empty head) && negb (is_empty (Py.rstrip head "/"))
  then Py.rstrip head "/"
  else head.

End OsPath.

(** ** Exceptions and results *)

Inductive exn : Type :=
  | FileNotFoundError
  | FileExistsError
  | NotADirectoryError
  | IsADirectoryError
  | OSError
  | KeyError
  | IndexError
  | ValueError
  | ReferenceError
  | UnboundLocalError
  | NotImplementedError
  | Exception (detail : string).

Inductive outcome (A : Type) : Type :=
  | Return (a : A)
  | Raise (e : exn).
Arguments Return {A} a.
Arguments Raise {A} e.

Global Instance exn_eq_dec : EqDecision exn.
Proof. solve_decision. Defined.

(** ** The file system *)

(** A node is a directory or a regular file with its text.  A path names
    the node stored under its list of components; the root always is a
    directory, relative paths start at the root, and "." and ".." are
    ordinary names.  A table is meant to hold the parent of each of its
    entries; an entry is listed by its parent only. *)
Inductive node : Type :=
  | Dir
  | File (content : string).

Global Instance node_eq_dec : EqDecision node.
Proof. solve_decision. Defined.

Abbreviation filesystem := (gmap (list string) node).

Module Fs.

Definition valid_name (n : string) : bool :=
  negb (OsPath.is_empty n) && negb (Py.contains n "/").

(** The components of a path: the non-empty pieces between separators. *)
Definition components (p : string) : list string :=
  filter (fun n => negb (OsPath.is_empty n) = true) (Py.split p "/").

(** [strip_key d k = Some r] when [k = d ++ r]. *)
Fixpoint strip_key (d k : list string) : option (list string) :=
  match d with
  | [] => Some k
  | x :: d' =>
      match k with
      | y :: k' => if decide (x = y) then strip_key d' k' else None
      | [] => None
      end
  end.

Definition is_under (d k : list string) : bool :=
  match strip_key d k with Some _ => true | None => false end.

Definition child_name (d k : list string) : option string :=
  match strip_key d k with
  | Some [n] => if valid_name n then Some n else None
  | _ => None
  end.

(** The entries of the directory stored under [d], in the order of the
    table (the order of a directory listing is not specified). *)
Definition children (fs : filesystem) (d : list string) : list string :=
  omap (fun kv => child_name d kv.1) (map_to_list fs).

(** [os.stat(p)], reduced to the kind of node. *)
Definition stat (fs : filesystem) (p : string) : outcome node :=
  if OsPath.is_empty p then Raise FileNotFoundError
  else match components p with
       | [] => Return Dir
       | k =>
           match fs !! k with
           | None => Raise FileNotFoundError
           | Some Dir => Return Dir
           | Some (File c) =>
               if Py.endswith_char p "/" then Raise NotADirectoryError
               else Return (File c)
           end
       end.

(** [os.path.isfile(p)] and [os.path.isdir(p)]: false when [stat] fails. *)
Definition isfile (fs : filesystem) (p : string) : bool :=
  match stat fs p with Return (File _) => true | _ => false end.

Definition isdir (fs : filesystem) (p : string) : bool :=
  match stat fs p with Return Dir => true | _ => false end.

(** [os.listdir(p)] *)
Definition listdir (fs : filesystem) (p : string) : outcome (list string) :=
  match stat fs p with
  | Return Dir => Return (children fs (components p))
  | Return (File _) => Raise NotADirectoryError
  | Raise e => Raise e
  end.

(** [os.walk(top)] (top-down, errors of the listing ignored): one triple
    [(root, dirs, files)] per directory.  [fuel] bounds the depth. *)
Fixpoint walk (fuel : nat) (fs : filesystem) (top : string)
  : list (string * list string * list string) :=
  match fuel with
  | O => []
  | S fuel' =>
      match listdir fs top with
      | Raise _ => []
      | Return names =>
          let dirs := filter (fun n => isdir fs (OsPath.join2 top n) = true) names in
          let nondirs := filter (fun n => isdir fs (OsPath.join2 top n) = false) names in
          (top, dirs, nondirs)
            :: concat (map (fun d => walk fuel' fs (OsPath.join2 top d)) dirs)
      end
  end.

(** [io.open(p, "r", encoding="utf8").read()] *)
Definition read (fs : filesystem) (p : string) : outcome string :=
  match stat fs p with
  | Return (File c) => Return c
  | Return Dir => Raise IsADirectoryError
  | Raise e => Raise e
  end.

Definition parent (k : list string) : list string := removelast k.

(** [io.open(p, "w", encoding="utf8")]: an existing file is truncated, a
    new one is created in an existing directory; the result is the table
    and the key of the open file. *)
Definition open_w (fs : filesystem) (p : string)
  : outcome (filesystem * list string) :=
  if OsPath.is_empty p then Raise FileNotFoundError
  else if Py.endswith_char p "/" then Raise IsADirectoryError
  else match components p with
       | [] => Raise IsADirectoryError
       | k =>
           match fs !! k with
           | Some Dir => Raise IsADirectoryError
           | Some (File _) => Return (<[k := File EmptyString]> fs, k)
           | None =>
               match (match parent k with [] => Some Dir | d => fs !! d end) with
               | Some Dir => Return (<[k := File EmptyString]> fs, k)
               | Some (File _) => Raise NotADirectoryError
               | None => Raise FileNotFoundError
               end
           end
       end.

(** [f.write(s)] on the file opened under key [k]. *)
Definition write (fs : filesystem) (k : list string) (s : string) : filesystem :=
  match fs !! k with
  | Some (File c) => <[k := File (c +:+ s)]> fs
  | _ => fs
  end.

(** The non-empty prefixes of a key, shortest first. *)
Definition ancestors_and_self (k : list string) : list (list string) :=
  map (fun n => take n k) (seq 1 (length k)).

Definition mkdir_missing (fs : filesystem) (k : list string) : filesystem :=
  match fs !! k with
  | None => <[k := Dir]> fs
  | Some _ => fs
  end.

(** [os.makedirs(p)] (with [exist_ok=False]): the missing ancestors are
    created; an existing leaf raises [FileExistsError]. *)
Definition makedirs (fs : filesystem) (p : string) : outcome filesystem :=
  if OsPath.is_empty p then Raise FileNotFoundError
  else match components p with
       | [] => Raise FileExistsError
       | k =>
           match fs !! k with
           | Some _ => Raise FileExistsError
           | None =>
               if existsb (fun a => match fs !! a with
                                    | Some (File _) => true
                                    | _ => false
                                    end) (ancestors_and_self k)
               then Raise NotADirectoryError
               else Return (foldl mkdir_missing fs (ancestors_and_self k))
           end
       end.

(** The entries below [src], re-rooted at [dst]. *)
Definition copied (fs : filesystem) (src dst : list string)
  : list (list string * node) :=
  omap (fun kv => match strip_key src kv.1 with
                  | Some (n :: rel) => Some (dst ++ n :: rel, kv.2)
                  | _ => None
                  end) (map_to_list fs).

(** [shutil.copytree(src, dst)]: [src] must be a directory and [dst] must
    not exist; [dst] and its missing ancestors are created.  When [dst]
    lies below an existing sub-directory of [src] the real copy descends
    into its own output until the system refuses the path: [OSError]. *)
Definition copytree (fs : filesystem) (src dst : string) : outcome filesystem :=
  match stat fs src with
  | Raise e => Raise e
  | Return (File _) => Raise NotADirectoryError
  | Return Dir =>
      match makedirs fs dst with
      | Raise e => Raise e
      | Return fs1 =>
          match strip_key (components src) (components dst) with
          | Some (n :: _ :: _) =>
              match fs !! (components src ++ [n]) with
              | Some Dir => Raise OSError
              | _ => Return (foldr (fun kv acc => <[kv.1 := kv.2]> acc) fs1
                               (copied fs (components src) (components dst)))
              end
          | _ => Return (foldr (fun kv acc => <[kv.1 := kv.2]> acc) fs1
                           (copied fs (components src) (components dst)))
          end
      end
  end.

(** [shutil.rmtree(p)]: the directory and everything below it. *)
Definition rmtree (fs : filesystem) (p : string) : outcome filesystem :=
  match stat fs p with
  | Raise e => Raise e
  | Return (File _) => Raise NotADirectoryError
  | Return Dir =>
      Return (filter (fun kv => is_under (components p) kv.1 = false) fs)
  end.

End Fs.

(** ** Data of the plugin *)

(** A song is a dictionary of tags; ["location"] holds its path. *)
Abbreviation SongRecord := (gmap string string).

(** An entry of [songs_dict]: [{"name": ..., "id": ..., "songs": [...]}]. *)
Record AbstractPlaylist : Type := {
  name : string;
  id : gmap string string;
  songs : list SongRecord;
}.

(** An entry of the catalog [playlists]: [{"name": ..., "path": ...}]. *)
Record PlaylistFileRef : Type := {
  pl_name : string;
  pl_path : string;
}.

(** The persistent settings of the plugin ([database]). *)
Record Database : Type := {
  local_prepend : string;
  ultrasonics_prepend : string;
}.

(** The settings of the applet ([settings_dict]). *)
Record Settings : Type := {
  s_dir : string;
  s_recursive : string;
  s_filter : string;
  s_retention : string;
}.

(** The keyword arguments of [run]; an incoming playlist is a reference
    into the store of playlist objects of the caller. *)
Record Kwargs : Type := {
  database : Database;
  component : string;
  applet_id : string;
  songs_dict : list nat;
}.

(** The state [run] works on: the file system and the playlist objects
    the caller shares with it. *)
Record world : Type := {
  files : filesystem;
  objects : list AbstractPlaylist;
}.

(** ** A state and exception monad *)

Definition M (A : Type) : Type := world -> outcome A * world.

Global Instance outcome_ret : MRet outcome := fun A a => Return a.
Global Instance outcome_bind : MBind outcome := fun A B f m =>
  match m with
  | Return a => f a
  | Raise e => Raise e
  end.

Global Instance M_ret : MRet M := fun A a w => (Return a, w).
Global Instance M_bind : MBind M := fun A B f m w =>
  match m w with
  | (Return a, w') => f a w'
  | (Raise e, w') => (Raise e, w')
  end.

Definition raise {A : Type} (e : exn) : M A := fun w => (Raise e, w).

Definition lift {A : Type} (o : outcome A) : M A := fun w => (o, w).

(** A call that only reads the file system. *)
Definition fs_query {A : Type} (q : filesystem -> outcome A) : M A :=
  fun w => (q (files w), w).

(** A call that changes the file system; nothing changes when it raises. *)
Definition fs_update (op : filesystem -> outcome filesystem) : M unit :=
  fun w =>
    match op (files w) with
    | Return fs' => (Return tt, {| files := fs'; objects := objects w |})
    | Raise e => (Raise e, w)
    end.

(** [for x in l: body(x)] *)
Fixpoint for_each {A : Type} (l : list A) (body : A -> M unit) : M unit :=
  match l with
  | [] => mret tt
  | x :: l' => body x ≫= fun _ => for_each l' body
  end.

(** ** The plugin *)

Module Plugin.

Definition supported_playlist_extensions : list string := [".m3u"].

(** [os.name] of the host. *)
Definition os_name : string := "posix".

Definition newline : string := String (ascii_of_nat 10) EmptyString.

(** Truth value of a string: non-empty. *)
Definition truthy (s : string) : bool := negb (OsPath.is_empty s).

(** Remove any playlist local music files prepend, so only the path
    relative to the user's music directory is left.  Default is local
    prepend, invert is ultrasonics prepend. *)
Definition remove_prepend (database : Database) (path : string) (invert : bool)
  : string :=
  if negb invert then
    if truthy (local_prepend database) then
      Py.lstrip (Py.lstrip (Py.replace path (local_prepend database) "") "/") "\"
    else path
  else
    if truthy (ultrasonics_prepend database) then
      Py.lstrip (Py.lstrip (Py.replace path (ultrasonics_prepend database) "") "/") "\"
    else path.

(** Converts a path string into the system format. *)
Definition convert_path (enable_convert_path : bool) (path : string)
  (invert : bool) : string :=
  if enable_convert_path then
    let unix := negb (String.eqb os_name "nt") in
    let unix := if invert then negb unix else unix in
    if unix then Py.replace path "\" "/" else Py.replace path "/" "\"
  else path.

(** [re.sub("[\\/:*?|<>]+[ ]*", "", title)].  The pattern is the regular
    expression [[\/:*?|<>]+[ ]*]: a run of the characters / : * ? | < >
    followed by a run of spaces.  [after] tells that the scan is inside a
    match, past its first character. *)
Definition illegal (c : ascii) : bool := Py.char_in c "/:*?|<>".

Fixpoint re_sub_from (after : bool) (s : string) : string :=
  match s with
  | EmptyString => EmptyString
  | String c s' =>
      if illegal c then re_sub_from true s'
      else if after && Ascii.eqb c " " then re_sub_from true s'
      else String c (re_sub_from false s')
  end.

Definition re_sub_title (title : string) : string := re_sub_from false title.

(** [min(l)] for strings (the first of the smallest) and [l.index(x)]. *)
Fixpoint py_min (x : string) (l : list string) : string :=
  match l with
  | [] => x
  | y :: l' => py_min (if String.ltb y x then y else x) l'
  end.

Fixpoint py_index (l : list string) (x : string) : option nat :=
  match l with
  | [] => None
  | y :: l' => if String.eqb y x then Some 0 else S <$> py_index l' x
  end.

Definition retention_dict : list (string * nat) :=
  [("No Backups", 0); ("3 Backups", 3); ("5 Backups", 5); ("10 Backups", 10)].

Fixpoint dict_get (d : list (string * nat)) (k : string) : outcome nat :=
  match d with
  | [] => Raise KeyError
  | (k', v) :: d' => if String.eqb k' k then Return v else dict_get d' k
  end.

Section run.

(** The collaborators that live outside the plugin file:
    [local_tags.tags], [name_filter.filter_list] and the entry
    ["config_dir"] of [_ultrasonics]. *)
Variable local_tags_tags : filesystem -> string -> outcome SongRecord.
Variable name_filter_filter_list : list string -> string -> list string.
Variable config_dir : string.

Variable settings_dict : Settings.
Variable kwargs : Kwargs.
(** [str(datetime.now().replace(microsecond=0))] at the time of the call. *)
Variable now : string.

(** Get path for playlist files *)
Definition path : string := Py.rstrip (Py.rstrip (s_dir settings_dict) "/") "\".

(** Check if file paths are unix or nt (windows) *)
Definition enable_convert_path : bool :=
  let ultrasonics_unix := Py.startswith (ultrasonics_prepend (database kwargs)) "/" in
  let local_unix := Py.startswith (local_prepend (database kwargs)) "/" in
  negb (Bool.eqb ultrasonics_unix local_unix).

Definition backup_dir : string :=
  OsPath.join config_dir ["up_local playlists"; "backups"; applet_id kwargs; ""].

Definition runtime : string :=
  Py.replace (Py.replace now " " "-") ":" "-".

(** The [while] loop of [backup_playlists]; every turn shortens
    [backups], so [fuel = length backups] turns are enough. *)
Fixpoint prune (fuel : nat) (retention : nat) (backups backup_time : list string)
  : M unit :=
  if retention <? length backups then
    match fuel with
    | O => mret tt
    | S fuel' =>
        match backup_time with
        | [] => raise ValueError
        | t :: rest =>
            match py_index backup_time (py_min t rest) with
            | None => raise ValueError
            | Some oldest_backup =>
                match backups !! oldest_backup with
                | None => raise IndexError
                | Some b =>
                    (* Delete oldest backup *)
                    fs_update (fun fs => Fs.rmtree fs (OsPath.join2 backup_dir b)) ≫= fun _ =>
                    prune fuel' retention
                      (delete oldest_backup backups)
                      (delete oldest_backup backup_time)
                end
            end
        end
    end
  else mret tt.

(** [backup_playlists], first part: create the backups folder if it
    doesn't already exist ([FileExistsError] is passed over). *)
Definition make_backup_dir : M unit :=
  fun w =>
    match fs_update (fun fs => Fs.makedirs fs (OsPath.dirname backup_dir)) w with
    | (Raise FileExistsError, w') => (Return tt, w')
    | r => r
    end.

(** [backup_playlists], second part: the snapshot copy and the removal of
    the oldest backups exceeding the retention limit.  (The size of the
    backups, computed last, is only logged.) *)
Definition snapshot_and_prune : M unit :=
  lift (dict_get retention_dict (s_retention settings_dict)) ≫= fun retention =>
  (* Backup local playlists *)
  (if 0 <? retention
   then fs_update (fun fs => Fs.copytree fs path (OsPath.join2 backup_dir runtime))
   else mret tt) ≫= fun _ =>
  fs_query (fun fs => Fs.listdir fs backup_dir) ≫= fun backups =>
  let backup_time := map (fun b => Py.replace b "-" "") backups in
  prune (length backups) retention backups backup_time.

(** Create copy of local playlists folder in backups directory.  Removes
    oldest backups exceeding retention limit. *)
Definition backup_playlists : M unit :=
  make_backup_dir ≫= fun _ => snapshot_and_prune.

(** Create a dictionary 'playlists' of all playlists in the specified
    directory: the body of the [try] block.  The fuel of the walk exceeds
    the depth of any tree of the table. *)
Definition scan (fs : filesystem) : outcome (list PlaylistFileRef) :=
  if String.eqb (s_recursive settings_dict) "Yes" then
    (* Recursive mode *)
    Return (concat (map (fun t : string * list string * list string =>
                           map (fun item => {| pl_name := (OsPath.splitext item).1;
                                               pl_path := OsPath.join2 t.1.1 item |})
                               t.2)
                        (Fs.walk (S (size fs)) fs path)))
  else
    (* Non recursive mode *)
    Fs.listdir fs path ≫= fun files =>
    mret (map (fun item => {| pl_name := (OsPath.splitext item).1;
                              pl_path := OsPath.join2 path item |}) files).

(** The catalog: an exception of the scan is logged and leaves the list
    empty; files without a supported extension are removed. *)
Definition playlists (fs : filesystem) : list PlaylistFileRef :=
  let found := match scan fs with
               | Return l => l
               | Raise _ => []
               end in
  filter (fun item => (OsPath.splitext (pl_path item)).2 ∈ supported_playlist_extensions)
         found.

(** One turn of the loop over the lines of a playlist.  The state is the
    local variable [temp_song_dict] of [run] (unbound until the first
    successful extraction) and the songs collected so far. *)
Definition read_song (fs : filesystem)
  (st : option SongRecord * list SongRecord) (song : string)
  : outcome (option SongRecord * list SongRecord) :=
  (* Skip .m3u tags beginning with "#" *)
  if Py.startswith song "#" then Return st
  else
    (* Convert path to be usable by ultrasonics *)
    let song_path := remove_prepend (database kwargs) song false in
    let song_path := convert_path enable_convert_path song_path false in
    let song_path := OsPath.join2 (ultrasonics_prepend (database kwargs)) song_path in
    (* Skip files which don't exist *)
    if negb (Fs.isfile fs song_path) then Return st
    else
      match local_tags_tags fs song_path with
      | Return temp_song_dict => Return (Some temp_song_dict, st.2 ++ [temp_song_dict])
      | Raise NotImplementedError => Return st
      | Raise _ =>
          (* Add entry to the full songs dict for this playlist *)
          match st.1 with
          | Some temp_song_dict => Return (st.1, st.2 ++ [temp_song_dict])
          | None => Raise UnboundLocalError
          end
      end.

Fixpoint read_songs (fs : filesystem)
  (st : option SongRecord * list SongRecord) (lines : list string)
  : outcome (option SongRecord * list SongRecord) :=
  match lines with
  | [] => Return st
  | song :: lines' => read_song fs st song ≫= fun st' => read_songs fs st' lines'
  end.

(** The loop over the playlists of component "inputs". *)
Fixpoint read_playlists (fs : filesystem) (temp_song_dict : option SongRecord)
  (todo : list PlaylistFileRef) (songs_dict : list AbstractPlaylist)
  : outcome (list AbstractPlaylist) :=
  match todo with
  | [] => Return songs_dict
  | playlist :: todo' =>
      (* Read the playlist file *)
      Fs.read fs (pl_path playlist) ≫= fun text =>
      read_songs fs (temp_song_dict, []) (Py.splitlines text) ≫= fun st =>
      (* Add previous playlist to full songs_dict *)
      read_playlists fs st.1 todo'
        (songs_dict ++ [{| name := pl_name playlist; id := ∅; songs := st.2 |}])
  end.

Definition run_inputs : M (list AbstractPlaylist) :=
  fs_query (fun fs =>
    let found := playlists fs in
    (* Apply regex filter to playlists *)
    let filter_titles := map pl_name found in
    let filter_titles := name_filter_filter_list filter_titles (s_filter settings_dict) in
    let found := filter (fun item => pl_name item ∈ filter_titles) found in
    read_playlists fs None found []).

(** The path written for a song located at [location]. *)
Definition playlist_line (location : string) : string :=
  (* Find location of song, and convert back to local playlists format *)
  let song_path := remove_prepend (database kwargs) location true in
  let prepend_path_converted :=
    convert_path enable_convert_path (local_prepend (database kwargs)) false in
  let song_path := OsPath.join2 prepend_path_converted song_path in
  convert_path enable_convert_path song_path true.

(** The body of the loop over [songs_dict] of component "outputs";
    [item] is a reference to a playlist object of the caller. *)
Definition write_playlist (found : list PlaylistFileRef) (item : nat) : M unit :=
  let existing_playlist_titles := map pl_name found in
  (fun w => match objects w !! item with
            | Some pl => (Return pl, w)
            | None => (Raise ReferenceError, w)
            end) ≫= fun pl =>
  (* Replace invalid characters in playlist title *)
  let title := re_sub_title (name pl) in
  (fun w => (Return tt,
             {| files := files w;
                objects := <[item := {| name := title; id := id pl; songs := songs pl |}]>
                             (objects w) |})) ≫= fun _ =>
  (* Check if playlist already exists *)
  (if bool_decide (title ∈ existing_playlist_titles) then
     (* Update existing playlist *)
     match filter (fun x => pl_name x = title) found with
     | x :: _ => (fun w => match Fs.open_w (files w) (pl_path x) with
                           | Return (fs', f) =>
                               (Return f, {| files := fs'; objects := objects w |})
                           | Raise e => (Raise e, w)
                           end)
     | [] => raise IndexError
     end
   else
     (* Create new playlist *)
     (fun w => match Fs.open_w (files w) (OsPath.join2 path (title +:+ ".m3u")) with
               | Return (fs', f) =>
                   (Return f, {| files := fs'; objects := objects w |})
               | Raise e => (Raise e, w)
               end)) ≫= fun f =>
  for_each (songs pl) (fun song =>
    (* Skip songs without local file *)
    match song !! "location" with
    | None => mret tt
    | Some location =>
        (* Write song to playlist terminated with newline character *)
        fs_update (fun fs => Return (Fs.write fs f (playlist_line location +:+ newline)))
    end).

Definition run_outputs : M unit :=
  fs_query (fun fs => Return (playlists fs)) ≫= fun found =>
  (* Backup local dir if requested *)
  backup_playlists ≫= fun _ =>
  (* Sync songs_dict to local playlists *)
  for_each (songs_dict kwargs) (write_playlist found).

(** [run(settings_dict, **kwargs)]: the list of playlists for component
    "inputs", [None] otherwise. *)
Definition run : M (option (list AbstractPlaylist)) :=
  if String.eqb (component kwargs) "inputs" then
    run_inputs ≫= fun songs_dict => mret (Some songs_dict)
  else if String.eqb (component kwargs) "outputs" then
    run_outputs ≫= fun _ => mret None
  else mret None.

End run.

(** ** The forms of the plugin *)

(** The values of the dictionaries the plugin hands to the application:
    strings, booleans, lists and dictionaries (with their keys in the
    order of the source).  Characters outside ASCII stand as the bytes of
    their UTF-8 encoding. *)
Local Unset Elimination Schemes.
Inductive value : Type :=
  | VStr (s : string)
  | VBool (b : bool)
  | VList (l : list value)
  | VDict (d : list (string * value)).
Local Set Elimination Schemes.

(** The description of the plugin and its persistent settings. *)
Definition handshake : value :=
  VDict [("name", VStr "local playlists");
        ("description", VStr "interface with all local .m3u playlists in a directory");
        ("type", VList [VStr "inputs"; VStr "outputs"]);
        ("mode", VList [VStr "playlists"]);
        ("version", VStr "0.4");
        ("settings", VList
      [ VDict [("type", VStr "string");
              ("value", VStr "Local playlists (such as .m3u files) include paths directly to the song.")];
        VDict [("type", VStr "string");
              ("value", VStr "If the playlists were generated by a different computer/server to the one you're running ultrasonics 🎧 on currently, the paths saved in the playlist cannot be used by ultrasonics to find the song file.")];
        VDict [("type", VStr "string");
              ("value", VStr "Therefore, you need to provide a prepend for your playlist music files, and the path relative to ultrasonics.")];
        VDict [("type", VStr "string");
              ("value", VStr "This prepend is the longest path 📏 common to all audio files.")];
        VDict [("type", VStr "text");
              ("label", VStr "Local Playlist Prepend");
              ("name", VStr "local_prepend");
              ("value", VStr "D:/Music")];
        VDict [("type", VStr "text");
              ("label", VStr "ultrasonics Prepend");
              ("name", VStr "ultrasonics_prepend");
              ("value", VStr "/mnt/music library/music")] ])].

(** [builder]: the settings form of an applet, by the component named in
    its keyword arguments. *)
Definition builder (kwargs : Kwargs) : list value :=
  let settings_dict :=
    [ VDict [("type", VStr "string");
            ("value", VStr ("⚠️ Only "
                   +:+ Py.join ", " supported_playlist_extensions
                   +:+ " extensions are supported for playlists, and .mp3, m4a extensions are supported for audio files. Unsupported files will be ignored."))];
      VDict [("type", VStr "text");
            ("label", VStr "Directory");
            ("name", VStr "dir");
            ("value", VStr "/mnt/music library/playlists");
            ("required", VBool true)];
      VDict [("type", VStr "string");
            ("value", VStr "Enabling recursive mode will search all subfolders for more playlists.")];
      VDict [("type", VStr "radio");
            ("label", VStr "Recursive");
            ("name", VStr "recursive");
            ("id", VStr "recursive");
            ("options", VList [VStr "Yes"; VStr "No"]);
            ("required", VBool true)] ] in
  if String.eqb (component kwargs) "inputs" then
    settings_dict ++
    [ VDict [("type", VStr "string");
            ("value", VStr "You can use regex style filters to only select certain playlists. For example, 'disco' would sync playlists 'Disco 2010' and 'nu_disco', or '2020$' would only sync playlists which ended with the value '2020'.")];
      VDict [("type", VStr "string");
            ("value", VStr "Leave it blank to sync everything 🤓.")];
      VDict [("type", VStr "text");
            ("label", VStr "Filter");
            ("name", VStr "filter");
            ("value", VStr "")] ]
  else if String.eqb (component kwargs) "outputs" then
    settings_dict ++
    [ VDict [("type", VStr "string");
            ("value", VStr "If you want, your local playlists directory can be backed up inside the `config/up_local playlists` folder. You can set the backup retention here 💾. Everything inside the folder will be backed up, so keep an eye on the space requirements.")];
      VDict [("type", VStr "radio");
            ("label", VStr "Backup Retention");
            ("name", VStr "retention");
            ("id", VStr "retention");
            ("options", VList [VStr "No Backups"; VStr "3 Backups"; VStr "5 Backups"; VStr "10 Backups"]);
            ("required", VBool true)];
      VDict [("type", VStr "string");
            ("value", VStr "💿 This plugin will update any existing playlist to match the one in the applet. This means any existing tracks will be removed if they are not present in the new playlist!")] ]
  else settings_dict.

End Plugin.

(** ** Definitions used to state the properties *)

Module Spec.

Import Plugin.

(** The prefix [remove_prepend] works with: the local prepend by default,
    the ultrasonics prepend when [invert] is set. *)
Definition configured_prefix (database : Database) (invert : bool) : string :=
  if invert then ultrasonics_prepend database else local_prepend database.

(** [stripPrefix] in the words of the design document: the prefix is
    removed from the start of the path if present, then the leading
    separators of both kinds are stripped; an empty prefix leaves the
    path as it is. *)
Definition stripPrefix_spec (prefix path : string) : string :=
  if truthy prefix then
    Py.lstrip (if Py.startswith path prefix
               then Py.slice_from path (Z.of_nat (String.length prefix))
               else path) "/\"
  else path.

(** [addPrefix]: how both pipelines put a prepend in front of a relative
    path, [os.path.join(prepend, path)]. *)
Definition add_prepend (prepend path : string) : string :=
  OsPath.join2 prepend path.

(** What follows the prepend in [add_prepend prepend path] for a
    relative [path]. *)
Definition after_prepend (prepend path : string) : string :=
  if Py.endswith_char prepend "/" then path else "/" +:+ path.

(** The text of a file written as one line per entry, each followed by
    a newline. *)
Definition file_text (lines : list string) : string :=
  foldr (fun line acc => line +:+ newline +:+ acc) "" lines.

(** The locations of the songs that have one, in order. *)
Definition locations (l : list SongRecord) : list string :=
  omap (fun song : SongRecord => song !! "location") l.

Fixpoint has_linebreak (s : string) : bool :=
  match s with
  | EmptyString => false
  | String c s' => Py.is_linebreak c || has_linebreak s'
  end.

Fixpoint has_illegal (s : string) : bool :=
  match s with
  | EmptyString => false
  | String c s' => illegal c || has_illegal s'
  end.


(** The text the backups are compared by: the name without its dashes. *)
Definition backup_time (b : string) : string := Py.replace b "-" "".

(** No backup of [removed] is more recent than one of [kept]. *)
Definition oldest_first (removed kept : list string) : Prop :=
  forall x y, x ∈ removed -> y ∈ kept ->
    String.leb (backup_time x) (backup_time y) = true.

(** The key of the backups folder of the applet. *)
Definition backup_root (config_dir : string) (kwargs : Kwargs) : list string :=
  Fs.components (backup_dir config_dir kwargs).

(** The backups present in a state. *)
Definition snapshots (config_dir : string) (kwargs : Kwargs) (w : world)
  : list string :=
  Fs.children (files w) (backup_root config_dir kwargs).

(** The names of the snapshots a sequence of jobs takes, one per clock
    reading. *)
Definition runtimes (clock : list string) : list string := map runtime clock.

(** Jobs run one after the other with the same settings, one per clock
    reading. *)
Fixpoint run_jobs (tags : filesystem -> string -> outcome SongRecord)
  (filter_list : list string -> string -> list string) (config_dir : string)
  (settings_dict : Settings) (kwargs : Kwargs) (clock : list string) : M unit :=
  match clock with
  | [] => mret tt
  | now :: clock' =>
      run tags filter_list config_dir settings_dict kwargs now ≫= fun _ =>
      run_jobs tags filter_list config_dir settings_dict kwargs clock'
  end.

(** The number of entries strictly below the directory stored under
    [d]: a bound on the depth of the tree below it. *)
Definition descendants (fs : filesystem) (d : list string) : nat :=
  length (filter (fun k => Fs.is_under d k = true /\ k <> d) (map_to_list fs).*1).

(** A line of a playlist file that is a comment or is blank. *)
Definition is_comment_or_blank (line : string) : bool :=
  Py.startswith line "#" || OsPath.is_empty line.

End Spec.

(** ** A small installation, used to run the plugin on concrete inputs *)

Module Sample.

Import Plugin.

Definition db : Database :=
  {| local_prepend := "D:/Music"; ultrasonics_prepend := "/music" |}.

Definition song_a : SongRecord :=
  {[ "location" := "/music/a.mp3"; "title" := "a" ]}.

(** A tag extractor: a.mp3 is fine, c.txt is not a supported file type,
    anything else is unreadable. *)
Definition tags (fs : filesystem) (p : string) : outcome SongRecord :=
  if String.eqb p "/music/a.mp3" then Return song_a
  else if String.eqb p "/music/c.txt" then Raise NotImplementedError
  else Raise (Exception "corrupt").

(** A name filter that lets every name through. *)
Definition accept_all (names : list string) (pattern : string) : list string :=
  names.

Definition music : list (list string * node) :=
  [ (["music"], Dir);
    (["music"; "a.mp3"], File "A");
    (["music"; "b.mp3"], File "B");
    (["music"; "c.txt"], File "C") ].

(** One playlist: a good song, then an unreadable one. *)
Definition library : filesystem :=
  list_to_map
    ((["pl"], Dir)
     :: (["pl"; "mix.m3u"],
         File (Spec.file_text ["#EXTM3U"; "D:/Music/a.mp3"; ""; "D:/Music/b.mp3"]))
     :: music).

(** One playlist whose first song is unreadable. *)
Definition library_bad_first : filesystem :=
  list_to_map
    ((["pl"], Dir)
     :: (["pl"; "mix.m3u"], File (Spec.file_text ["D:/Music/b.mp3"; "D:/Music/a.mp3"]))
     :: music).

(** No playlist directory at all. *)
Definition library_no_root : filesystem := list_to_map music.

Definition settings (recursive retention : string) : Settings :=
  {| s_dir := "/pl/"; s_recursive := recursive; s_filter := "";
     s_retention := retention |}.

Definition inputs : Kwargs :=
  {| database := db; component := "inputs"; applet_id := "job1"; songs_dict := [] |}.

Definition outputs (refs : list nat) : Kwargs :=
  {| database := db; component := "outputs"; applet_id := "job1";
     songs_dict := refs |}.

(** The playlist objects of the caller for component "outputs". *)
Definition song_untagged : SongRecord := {[ "title" := "z" ]}.

Definition song_b : SongRecord := {[ "location" := "/music/sub/b.mp3" ]}.

Definition incoming : list AbstractPlaylist :=
  [ {| name := "mi:x"; id := ∅; songs := [song_a; song_untagged; song_b] |};
    {| name := "road? trip"; id := ∅; songs := [song_a] |} ].

Definition sink_world : world := {| files := library; objects := incoming |}.

(** The library with four earlier snapshots of the job. *)
Definition library_with_backups : filesystem :=
  list_to_map
    ((["pl"], Dir)
     :: (["pl"; "mix.m3u"], File (Spec.file_text ["D:/Music/a.mp3"]))
     :: (["config"], Dir)
     :: (["config"; "up_local playlists"], Dir)
     :: (["config"; "up_local playlists"; "backups"], Dir)
     :: (["config"; "up_local playlists"; "backups"; "job1"], Dir)
     :: (["config"; "up_local playlists"; "backups"; "job1"; "2020-05-01-08-00-00"], Dir)
     :: (["config"; "up_local playlists"; "backups"; "job1"; "2020-05-03-08-00-00"], Dir)
     :: (["config"; "up_local playlists"; "backups"; "job1"; "2020-05-02-08-00-00"], Dir)
     :: (["config"; "up_local playlists"; "backups"; "job1"; "2020-05-02-08-00-00";
          "mix.m3u"], File "old")
     :: (["config"; "up_local playlists"; "backups"; "job1"; "2020-04-30-23-59-59"], Dir)
     :: music).

Definition run_sample (settings_dict : Settings) (kwargs : Kwargs) (now : string)
  : M (option (list AbstractPlaylist)) :=
  run tags accept_all "/config" settings_dict kwargs now.

End Sample.

(** * Properties *)

(** ** Facts about the string methods *)

Module PyFacts.

Import Py.

Lemma append_cons (c : ascii) (s t : string) :
  String c s +:+ t = String c (s +:+ t).
Proof. reflexivity. Qed.

Lemma append_nil_l (t : string) : "" +:+ t = t.
Proof. reflexivity. Qed.

Lemma append_empty_r (s : string) : s +:+ "" = s.
Proof.
  induction s as [|c s IH]; [done |]. by rewrite append_cons, IH.
Qed.

Lemma append_assoc (a b c : string) : (a +:+ b) +:+ c = a +:+ (b +:+ c).
Proof.
  induction a as [|x a IH]; [done |]. by rewrite !append_cons, IH.
Qed.

Lemma startswith_append (p s : string) : startswith (p +:+ s) p = true.
Proof.
  induction p as [|a p IH]; [done |].
  rewrite append_cons. simpl. by rewrite Ascii.eqb_refl.
Qed.

Lemma startswith_inv (s p : string) :
  startswith s p = true -> exists r, s = p +:+ r.
Proof.
  revert s. induction p as [|a p IH]; intros s H; simpl in *.
  - by exists s.
  - destruct s as [|b s]; [done |].
    destruct (Ascii.eqb_spec a b) as [->|]; [| done].
    destruct (IH _ H) as [r ->]. by exists r.
Qed.

(** The characters of a replaced occurrence are skipped. *)
Lemma replace_from_skip (a s old new : string) :
  replace_from (String.length a) (a +:+ s) old new = replace_from 0 s old new.
Proof.
  induction a as [|c a IH]; [done |]. rewrite append_cons. exact IH.
Qed.

(** Without an occurrence of [old] nothing is replaced. *)
Lemma replace_absent (s old new : string) :
  old <> "" -> contains s old = false -> replace s old new = s.
Proof.
  intros Hne. unfold replace.
  induction s as [|c s IH]; intros H.
  - simpl. by destruct old.
  - simpl in H. apply orb_false_iff in H as [H1 H2].
    cbn [replace_from]. rewrite H1. by rewrite IH.
Qed.

(** A leading occurrence followed by a text without any is removed alone. *)
Lemma replace_leading (old rest : string) :
  old <> "" -> contains rest old = false -> replace (old +:+ rest) old "" = rest.
Proof.
  intros Hne H. destruct old as [|a old]; [done |].
  unfold replace.
  assert (Hs : startswith (String a old +:+ rest) (String a old) = true)
    by apply startswith_append.
  rewrite append_cons in *. cbn [replace_from]. rewrite Hs, append_nil_l.
  rewrite replace_from_skip. by apply replace_absent.
Qed.

Lemma lstrip_not_leading (s chars : string) :
  (forall c r, s = String c r -> char_in c chars = false) -> lstrip s chars = s.
Proof.
  intros H. destruct s as [|c s]; [done |]. simpl. by rewrite (H c s).
Qed.

Lemma lstrip_no_start (s : string) (c : ascii) :
  startswith s (String c "") = false -> lstrip s (String c "") = s.
Proof.
  intros H. apply lstrip_not_leading. intros d r ->. simpl in *.
  destruct (Ascii.eqb_spec c d) as [->|Hne]; [done |].
  destruct (Ascii.eqb_spec d c) as [->|]; done.
Qed.

End PyFacts.

(** ** Facts about paths *)

Module PathFacts.

Import Py PyFacts.

Lemma split_nonempty (s : string) (sep : ascii) :
  exists x r, split s sep = x :: r.
Proof.
  induction s as [|c s (x & r & IH)]; [by eexists _, _ |].
  cbn [split]. destruct (Ascii.eqb c sep); [by eexists _, _ |].
  rewrite IH. by eexists _, _.
Qed.

(** Splitting distributes over a separator. *)
Lemma split_append_sep (a b : string) (sep : ascii) :
  split (a +:+ String sep b) sep = split a sep ++ split b sep.
Proof.
  induction a as [|c a IH].
  - rewrite append_nil_l. cbn [split]. by rewrite Ascii.eqb_refl.
  - rewrite append_cons. cbn [split]. destruct (Ascii.eqb c sep).
    + by rewrite IH.
    + rewrite IH. by destruct (split_nonempty a sep) as (x & r & ->).
Qed.

Lemma contains_char_cons (c d : ascii) (s : string) :
  contains (String c s) (String d "") = Ascii.eqb d c || contains s (String d "").
Proof.
  cbn [contains startswith]. destruct (Ascii.eqb d c); [done |]. by destruct s.
Qed.

Lemma contains_char_append (a b : string) (d : ascii) :
  contains (a +:+ b) (String d "") = contains a (String d "") || contains b (String d "").
Proof.
  induction a as [|c a IH]; [by rewrite append_nil_l |].
  rewrite append_cons, !contains_char_cons, IH. by rewrite orb_assoc.
Qed.

Lemma split_no_sep (n : string) (sep : ascii) :
  contains n (String sep "") = false -> split n sep = [n].
Proof.
  induction n as [|c n IH]; [done |].
  rewrite contains_char_cons. intros [Hc Hn]%orb_false_iff.
  cbn [split]. rewrite Ascii.eqb_sym, Hc. by rewrite IH.
Qed.

Lemma components_append_sep (a b : string) :
  Fs.components (a +:+ "/" +:+ b) = Fs.components a ++ Fs.components b.
Proof.
  unfold Fs.components.
  change ("/" +:+ b) with (String "/" b).
  by rewrite split_append_sep, filter_app.
Qed.

Lemma components_empty : Fs.components "" = [].
Proof. reflexivity. Qed.

Lemma valid_name_spec (n : string) :
  Fs.valid_name n = true <-> n <> "" /\ contains n "/" = false.
Proof.
  unfold Fs.valid_name. rewrite andb_true_iff, !negb_true_iff.
  destruct n as [|c n]; cbn [OsPath.is_empty];
    [split; intros [? ?]; done | split; intros [_ ?]; done].
Qed.

Lemma components_name (n : string) :
  Fs.valid_name n = true -> Fs.components n = [n].
Proof.
  intros [Hne Hs]%valid_name_spec. unfold Fs.components.
  rewrite split_no_sep by done. destruct n; [done |]. reflexivity.
Qed.

Lemma valid_name_relative (n : string) :
  Fs.valid_name n = true -> startswith n "/" = false.
Proof.
  intros [Hne Hs]%valid_name_spec. destruct n as [|c n]; [done |].
  rewrite contains_char_cons in Hs. apply orb_false_iff in Hs as [Hc _].
  cbn [startswith]. by rewrite Hc.
Qed.

Lemma endswith_char_inv (a : string) (c : ascii) :
  endswith_char a c = true -> exists a0, a = a0 +:+ String c "".
Proof.
  induction a as [|x a IH]; [done |]. cbn [endswith_char].
  destruct a as [|y a].
  - intros ->%Ascii.eqb_eq. by exists "".
  - intros H. destruct (IH H) as [a0 ->]. by exists (String x a0).
Qed.

Lemma components_trailing_sep (a : string) :
  Fs.components (a +:+ "/") = Fs.components a.
Proof.
  rewrite <- (append_empty_r "/"), components_append_sep, components_empty.
  by rewrite app_nil_r.
Qed.

(** The key of an entry of a directory. *)
Lemma components_join2_name (a n : string) :
  Fs.valid_name n = true ->
  Fs.components (OsPath.join2 a n) = Fs.components a ++ [n].
Proof.
  intros Hn. unfold OsPath.join2.
  rewrite valid_name_relative by done.
  destruct a as [|c a]; [by rewrite append_nil_l, components_name |].
  cbn [OsPath.is_empty orb].
  destruct (endswith_char (String c a) "/") eqn:E.
  - apply endswith_char_inv in E as [a0 ->].
    rewrite append_assoc, components_append_sep, components_trailing_sep.
    by rewrite (components_name n).
  - by rewrite components_append_sep, (components_name n).
Qed.

Lemma endswith_char_append (s : string) (c : ascii) :
  endswith_char (s +:+ String c "") c = true.
Proof.
  induction s as [|a s IH].
  - simpl. apply Ascii.eqb_refl.
  - rewrite append_cons. destruct s as [|b s]; [simpl; apply Ascii.eqb_refl |].
    rewrite append_cons in *. exact IH.
Qed.

Lemma join2_empty_r (a : string) :
  OsPath.join2 a "" = "" \/ endswith_char (OsPath.join2 a "") "/" = true.
Proof.
  unfold OsPath.join2. simpl. destruct a as [|c a]; [by left |]. right.
  cbn [OsPath.is_empty orb].
  destruct (endswith_char (String c a) "/") eqn:E.
  - by rewrite append_empty_r.
  - apply endswith_char_append.
Qed.

Lemma join2_nonempty_r (a b : string) :
  OsPath.is_empty b = false -> OsPath.is_empty (OsPath.join2 a b) = false.
Proof.
  intros Hb. unfold OsPath.join2. destruct (startswith b "/"); [done |].
  destruct (_ || _).
  - destruct a; [by rewrite append_nil_l | by rewrite append_cons].
  - destruct a; [by rewrite append_nil_l | by rewrite append_cons].
Qed.

Lemma join2_nonempty_l (a b : string) :
  OsPath.is_empty a = false -> OsPath.is_empty (OsPath.join2 a b) = false.
Proof.
  intros Ha. unfold OsPath.join2. destruct (startswith b "/") eqn:E.
  - by destruct b.
  - destruct a; [done |]. by destruct (_ || _); rewrite append_cons.
Qed.

(** What [rstrip] drops is a run of separators. *)
Lemma rstrip_sep_decomp (p : string) :
  exists t, p = rstrip p "/" +:+ t
            /\ Fs.components t = []
            /\ (t = "" \/ startswith t "/" = true).
Proof.
  induction p as [|c p (t & Hp & Ht & Hs)];
    [exists ""; split; [done |]; split; [done | by left] |].
  cbn [rstrip]. destruct (rstrip p "/") as [|x r] eqn:E.
  - rewrite append_nil_l in Hp. subst t. cbn [char_in].
    destruct (Ascii.eqb_spec c "/") as [->|Hc].
    + exists (String "/" p). split; [done |]. split; [| by right].
      change (String "/" p) with ("" +:+ "/" +:+ p).
      by rewrite components_append_sep, Ht.
    + by exists p.
  - exists t. split; [| done]. rewrite append_cons. by f_equal.
Qed.

Lemma rstrip_sep_components (p : string) :
  Fs.components (rstrip p "/") = Fs.components p.
Proof.
  destruct (rstrip_sep_decomp p) as (t & Hp & Ht & Hs).
  rewrite Hp at 2. destruct Hs as [-> | Hs]; [by rewrite append_empty_r |].
  apply startswith_inv in Hs as [t' ->].
  assert (Ht' : Fs.components t' = []).
  { rewrite <- Ht. symmetry. apply (components_append_sep "" t'). }
  by rewrite components_append_sep, Ht', app_nil_r.
Qed.

Lemma rfind_from_last (i : Z) (p : string) (c : ascii) :
  (0 <= i)%Z -> endswith_char p c = true ->
  rfind_from i p c = (i + Z.of_nat (String.length p) - 1)%Z.
Proof.
  revert i. induction p as [|x p IH]; intros i Hi; [done |].
  cbn [endswith_char rfind_from String.length]. destruct p as [|y p].
  - intros ->%Ascii.eqb_eq. cbn. rewrite Ascii.eqb_refl. lia.
  - intros H. rewrite (IH (i + 1)%Z) by (lia || done).
    cbn [String.length].
    destruct (0 <=? _)%Z eqn:E; [lia |]. apply Z.leb_gt in E. lia.
Qed.

Lemma slice_to_all (p : string) : slice_to p (Z.of_nat (String.length p)) = p.
Proof.
  unfold slice_to. rewrite Nat2Z.id.
  induction p as [|c p IH]; [done |]. cbn. by rewrite IH.
Qed.

(** The directory name of a path that ends with a separator names the
    same node. *)
Lemma dirname_trailing_sep (p : string) :
  endswith_char p "/" = true ->
  Fs.components (OsPath.dirname p) = Fs.components p
  /\ OsPath.is_empty (OsPath.dirname p) = false.
Proof.
  intros H. unfold OsPath.dirname, rfind.
  rewrite rfind_from_last by (lia || done).
  replace (0 + Z.of_nat (String.length p) - 1 + 1)%Z
    with (Z.of_nat (String.length p)) by lia.
  rewrite slice_to_all.
  assert (Hne : OsPath.is_empty p = false) by by destruct p.
  rewrite Hne. cbn [negb andb].
  destruct (OsPath.is_empty (rstrip p "/")) eqn:E; cbn [negb].
  - done.
  - by rewrite rstrip_sep_components.
Qed.

End PathFacts.

(** ** The path translator *)

Module PathTranslator.

Import Py PyFacts Plugin Spec.

Lemma truthy_nonempty (s : string) : truthy s = true <-> s <> "".
Proof. destruct s; simpl; split; done. Qed.

Lemma remove_prepend_unfold (database : Database) (path : string) (invert : bool) :
  remove_prepend database path invert =
    if truthy (configured_prefix database invert)
    then lstrip (lstrip (replace path (configured_prefix database invert) "") "/") "\"
    else path.
Proof. by destruct invert. Qed.

(** C2, as stated, fails: [remove_prepend] is not the [stripPrefix] of the
    design document.  A prefix that occurs again inside the path is
    removed there too: "D:/Music/mix/D:/Music/a.mp3" becomes
    "mix//a.mp3", not "mix/D:/Music/a.mp3". *)
Lemma remove_prepend_not_stripPrefix :
  ~ (forall (database : Database) (path : string) (invert : bool),
        remove_prepend database path invert
        = stripPrefix_spec (configured_prefix database invert) path).
Proof.
  intros H.
  specialize (H {| local_prepend := "D:/Music"; ultrasonics_prepend := "/mnt" |}
                "D:/Music/mix/D:/Music/a.mp3" false).
  vm_compute in H. discriminate H.
Qed.

(** C2, amended: [remove_prepend] returns the path unchanged when the
    prefix is empty; for a configured prefix it removes every occurrence
    of the prefix ([str.replace]) and then strips the leading '/'
    characters and after them the leading '\' characters.  When the
    prefix occurs at the start of the path only, exactly that occurrence
    is removed; when it does not occur, only the separators are
    stripped. *)
Theorem remove_prepend_replaces_all (database : Database) (path : string)
  (invert : bool) :
  let prefix := configured_prefix database invert in
  (prefix = "" -> remove_prepend database path invert = path) /\
  (prefix <> "" ->
     remove_prepend database path invert
     = lstrip (lstrip (replace path prefix "") "/") "\"
     /\ (forall rest, path = prefix +:+ rest -> contains rest prefix = false ->
           remove_prepend database path invert = lstrip (lstrip rest "/") "\")
     /\ (contains path prefix = false ->
           remove_prepend database path invert = lstrip (lstrip path "/") "\")).
Proof.
  intros prefix. rewrite remove_prepend_unfold. fold prefix. split.
  - by intros ->.
  - intros Hne. apply truthy_nonempty in Hne as Ht. rewrite Ht.
    split; [done |]. split.
    + intros rest -> Hrest. by rewrite replace_leading.
    + intros Habs. by rewrite replace_absent.
Qed.

Lemma remove_prepend_replaces_all_witness :
  remove_prepend {| local_prepend := "D:/Music"; ultrasonics_prepend := "/mnt" |}
    "D:/Music/rock/a.mp3" false = "rock/a.mp3".
Proof.
  destruct (remove_prepend_replaces_all
              {| local_prepend := "D:/Music"; ultrasonics_prepend := "/mnt" |}
              "D:/Music/rock/a.mp3" false) as [_ H].
  destruct H as (_ & H & _); [discriminate |].
  apply (H "/rock/a.mp3"); reflexivity.
Defined.

(** The two [lstrip] calls are chained: a '/' that follows a leading '\'
    stays. *)
Example remove_prepend_mixed_separators :
  remove_prepend {| local_prepend := "D:/Music"; ultrasonics_prepend := "/mnt" |}
    "D:/Music\/a.mp3" false = "/a.mp3".
Proof. reflexivity. Qed.

Lemma add_prepend_relative (prepend path : string) :
  truthy prepend = true -> startswith path "/" = false ->
  add_prepend prepend path = prepend +:+ after_prepend prepend path.
Proof.
  intros Ht Hrel. unfold add_prepend, after_prepend, OsPath.join2.
  rewrite Hrel. destruct prepend as [|c prepend]; [done |].
  cbn [OsPath.is_empty orb].
  by destruct (endswith_char (String c prepend) "/").
Qed.

(** C8, as stated, fails: a path that begins with a separator does not
    come back, although it contains no instance of the prefix. *)
Lemma strip_add_not_round_trip :
  ~ (forall (database : Database) (p : string),
        truthy (local_prepend database) = true ->
        contains p (local_prepend database) = false ->
        remove_prepend database (add_prepend (local_prepend database) p) false = p).
Proof.
  intros H.
  specialize (H {| local_prepend := "D:/Music"; ultrasonics_prepend := "/mnt" |}
                "/a.mp3" eq_refl eq_refl).
  vm_compute in H. discriminate H.
Qed.

(** The same path with the prefix put in front by plain concatenation. *)
Example strip_concat_not_round_trip :
  remove_prepend {| local_prepend := "D:/Music"; ultrasonics_prepend := "/mnt" |}
    ("D:/Music" +:+ "/a.mp3") false = "a.mp3".
Proof. reflexivity. Qed.

(** A relative path is lost too when the prefix shows up across the
    separator that [os.path.join] inserts. *)
Example strip_add_across_separator :
  contains "mnt/a.mp3" "/mnt" = false /\
  remove_prepend {| local_prepend := "/mnt"; ultrasonics_prepend := "/srv" |}
    (add_prepend "/mnt" "mnt/a.mp3") false = "a.mp3".
Proof. split; reflexivity. Qed.

(** C8, amended: for a configured local prefix [L] and a path [p] that
    does not begin with '/' or '\', stripping the local prefix from
    [os.path.join(L, p)] recovers [p], provided [L] does not occur in what
    follows the leading [L] in the joined path. *)
Theorem strip_add_round_trip (database : Database) (p : string) :
  truthy (local_prepend database) = true ->
  startswith p "/" = false ->
  startswith p "\" = false ->
  contains (after_prepend (local_prepend database) p) (local_prepend database) = false ->
  remove_prepend database (add_prepend (local_prepend database) p) false = p.
Proof.
  intros Ht Hs Hb Hocc.
  rewrite add_prepend_relative by done.
  rewrite (remove_prepend_unfold _ _ false). simpl. rewrite Ht.
  apply truthy_nonempty in Ht.
  rewrite replace_leading by done.
  unfold after_prepend.
  destruct (endswith_char (local_prepend database) "/").
  - rewrite (lstrip_no_start p "/") by done. by apply lstrip_no_start.
  - rewrite append_cons, append_nil_l.
    change (lstrip (String "/" p) "/") with (lstrip p "/").
    rewrite (lstrip_no_start p "/") by done. by apply lstrip_no_start.
Qed.

Lemma strip_add_round_trip_witness :
  remove_prepend {| local_prepend := "D:/Music"; ultrasonics_prepend := "/mnt" |}
    (add_prepend "D:/Music" "rock/a.mp3") false = "rock/a.mp3".
Proof.
  apply (strip_add_round_trip
           {| local_prepend := "D:/Music"; ultrasonics_prepend := "/mnt" |}
           "rock/a.mp3"); reflexivity.
Defined.

End PathTranslator.

(** ** The read pipeline (component "inputs") *)

Module ReadPipeline.

Import Py PyFacts PathFacts Plugin Spec.

Section read.

Variable local_tags_tags : filesystem -> string -> outcome SongRecord.
Variable name_filter_filter_list : list string -> string -> list string.
Variable config_dir : string.

(** A path that is empty or ends with a separator names no regular file. *)
Lemma isfile_trailing_separator (fs : filesystem) (p : string) :
  p = "" \/ endswith_char p "/" = true -> Fs.isfile fs p = false.
Proof.
  intros [-> | H]; [done |].
  unfold Fs.isfile, Fs.stat. destruct (OsPath.is_empty p); [done |].
  destruct (Fs.components p); [done |].
  destruct (fs !! _) as [[|c]|]; try done. by rewrite H.
Qed.

Lemma remove_prepend_empty (database : Database) (invert : bool) :
  remove_prepend database "" invert = "".
Proof.
  unfold remove_prepend.
  destruct invert; simpl;
    [destruct (ultrasonics_prepend database) | destruct (local_prepend database)];
    reflexivity.
Qed.

Lemma convert_path_empty (enable invert : bool) : convert_path enable "" invert = "".
Proof. by destruct enable, invert. Qed.

(** A comment line or a blank line leaves the state of the loop as it is. *)
Lemma read_song_skips (kwargs : Kwargs) (fs : filesystem)
  (st : option SongRecord * list SongRecord) (song : string) :
  startswith song "#" = true \/ song = "" ->
  read_song local_tags_tags kwargs fs st song = Return st.
Proof.
  intros [H | ->]; unfold read_song.
  - by rewrite H.
  - simpl. rewrite remove_prepend_empty, convert_path_empty.
    rewrite isfile_trailing_separator; [done |]. apply join2_empty_r.
Qed.

(** C9: a line that begins with '#' and a blank line never produce a song
    entry: the turn of the loop for such a line returns the songs
    collected so far unchanged, and the songs of a playlist are those
    of the file with these lines left out. *)
Theorem comment_and_blank_lines_yield_no_song (kwargs : Kwargs) (fs : filesystem)
  (st : option SongRecord * list SongRecord) (lines : list string) :
  (forall song, is_comment_or_blank song = true ->
     read_song local_tags_tags kwargs fs st song = Return st)
  /\ read_songs local_tags_tags kwargs fs st lines
     = read_songs local_tags_tags kwargs fs st
         (filter (fun line => is_comment_or_blank line = false) lines).
Proof.
  assert (Hskip : forall st' song, is_comment_or_blank song = true ->
            read_song local_tags_tags kwargs fs st' song = Return st').
  { intros st' song H. apply read_song_skips.
    unfold is_comment_or_blank in H. apply orb_true_iff in H as [H | H].
    - by left.
    - right. by destruct song. }
  split; [apply Hskip |].
  revert st. induction lines as [|line lines IH]; intros st; [done |].
  rewrite filter_cons. destruct (is_comment_or_blank line) eqn:E.
  - rewrite decide_False by done. cbn [read_songs].
    rewrite Hskip by done. apply IH.
  - rewrite decide_True by done. cbn [read_songs].
    destruct (read_song _ _ _ _ _) as [st'|e]; [apply IH | done].
Qed.

End read.

Lemma comment_and_blank_lines_yield_no_song_witness :
  read_song Sample.tags Sample.inputs Sample.library (None, []) "#EXTM3U"
  = Return (None, [])
  /\ read_song Sample.tags Sample.inputs Sample.library (None, []) ""
     = Return (None, []).
Proof.
  split;
    apply (comment_and_blank_lines_yield_no_song Sample.tags Sample.inputs
             Sample.library (None, []) []); reflexivity.
Defined.

(** What the loop does when the extractor raises an error other than
    [NotImplementedError] for an existing file: the error is logged and
    the turn goes on to the [append], with [temp_song_dict] as the last
    successful extraction left it. *)
Lemma read_song_extraction_error (tags : filesystem -> string -> outcome SongRecord)
  (kwargs : Kwargs) (fs : filesystem)
  (st : option SongRecord * list SongRecord) (song : string) (e : exn) :
  let song_path :=
    OsPath.join2 (ultrasonics_prepend (database kwargs))
      (convert_path (enable_convert_path kwargs)
         (remove_prepend (database kwargs) song false) false) in
  startswith song "#" = false ->
  Fs.isfile fs song_path = true ->
  tags fs song_path = Raise e ->
  e <> NotImplementedError ->
  read_song tags kwargs fs st song =
    match st.1 with
    | Some previous => Return (st.1, st.2 ++ [previous])
    | None => Raise UnboundLocalError
    end.
Proof.
  intros song_path Hc Hf Ht Hne. unfold read_song. rewrite Hc.
  fold song_path. rewrite Hf, Ht. simpl. by destruct e.
Qed.

(** C1 (evaluation): the playlist lists a.mp3, whose tags are read, and
    then b.mp3, for which the extractor raises a generic error.  The
    entry for b.mp3 is not skipped: the record of a.mp3 is appended a
    second time. *)
Lemma extraction_error_appends_previous_song :
  (Sample.run_sample (Sample.settings "No" "") Sample.inputs "2020-06-01 12:00:00"
     {| files := Sample.library; objects := [] |}).1
  = Return (Some [{| name := "mix"; id := ∅;
                     songs := [Sample.song_a; Sample.song_a] |}]).
Proof. vm_compute. reflexivity. Qed.

(** When the first song of the job is the unreadable one there is no
    earlier record: the run ends with [UnboundLocalError] and the good
    song after it is never read. *)
Lemma extraction_error_on_first_song_aborts :
  (Sample.run_sample (Sample.settings "No" "") Sample.inputs "2020-06-01 12:00:00"
     {| files := Sample.library_bad_first; objects := [] |}).1
  = Raise UnboundLocalError.
Proof. vm_compute. reflexivity. Qed.





End ReadPipeline.

(** ** The write pipeline (component "outputs") *)

Module WritePipeline.

Import Py PyFacts Plugin Spec.

Lemma world_eta (w : world) : {| files := files w; objects := objects w |} = w.
Proof. by destruct w. Qed.

Lemma splitlines_line (l rest : string) :
  has_linebreak l = false ->
  splitlines (l +:+ newline +:+ rest) = l :: splitlines rest.
Proof.
  induction l as [|c l IH]; intros H.
  - rewrite append_nil_l. by destruct rest.
  - simpl in H. apply orb_false_iff in H as [Hc Hl].
    rewrite append_cons. cbn [splitlines]. rewrite Hc. by rewrite IH.
Qed.

(** Reading back a text written line by line gives the lines. *)
Lemma splitlines_file_text (lines : list string) :
  Forall (fun l => has_linebreak l = false) lines ->
  splitlines (file_text lines) = lines.
Proof.
  induction 1 as [|l lines Hl _ IH]; [done |].
  cbn [file_text foldr]. rewrite splitlines_line by done. by f_equal.
Qed.

Lemma write_existing (fs : filesystem) (k : list string) (c s : string) :
  fs !! k = Some (File c) -> Fs.write fs k s = <[k := File (c +:+ s)]> fs.
Proof. unfold Fs.write. by intros ->. Qed.

Section write.

Variable settings_dict : Settings.
Variable kwargs : Kwargs.

(** The loop over the songs appends one line per song that has a
    location to the open file. *)
Lemma write_songs (f : list string) (l : list SongRecord) (w : world) (c : string) :
  files w !! f = Some (File c) ->
  for_each l (fun song : SongRecord =>
    match song !! "location" with
    | None => mret tt
    | Some location =>
        fs_update (fun fs =>
          Return (Fs.write fs f (playlist_line kwargs location +:+ newline)))
    end) w
  = (Return tt,
     {| files := <[f := File (c +:+ file_text (playlist_line kwargs <$> locations l))]>
                   (files w);
        objects := objects w |}).
Proof.
  revert w c. induction l as [|song l IH]; intros w c Hf.
  - cbn. rewrite append_empty_r, insert_id by done. by rewrite world_eta.
  - cbn [for_each]. unfold mbind, M_bind at 1.
    unfold locations. cbn [omap list_omap]. fold (locations l).
    destruct (song !! "location") as [location|] eqn:E.
    + unfold fs_update at 1. cbn [files objects].
      rewrite (write_existing _ _ c) by done.
      rewrite (IH _ (c +:+ playlist_line kwargs location +:+ newline))
        by (cbn; apply lookup_insert_eq).
      cbn [files objects fmap list_fmap]. rewrite insert_insert_eq.
      cbn [file_text foldr]. by rewrite !append_assoc.
    + cbn. by apply IH.
Qed.

Lemma title_in_catalog (found : list PlaylistFileRef) (title : string)
  (x : PlaylistFileRef) :
  head (filter (fun x => pl_name x = title) found) = Some x ->
  title ∈ map pl_name found.
Proof.
  intros H. apply head_Some_elem_of, list_elem_of_filter in H as [<- Hx].
  by apply (list_elem_of_fmap_2 pl_name).
Qed.

(** C4: writing a playlist whose sanitized name matches a playlist of the
    catalog that exists on disk succeeds and replaces the text of that
    file: afterwards the file holds exactly one line per incoming song
    that has a location, in order, whatever it held before; every line
    read back is the line of an incoming song; no other file changes. *)
Theorem existing_playlist_fully_replaced (found : list PlaylistFileRef)
  (item : nat) (w : world) (pl : AbstractPlaylist) (x : PlaylistFileRef)
  (old : string) :
  objects w !! item = Some pl ->
  head (filter (fun x => pl_name x = re_sub_title (name pl)) found) = Some x ->
  Fs.read (files w) (pl_path x) = Return old ->
  let lines := playlist_line kwargs <$> locations (songs pl) in
  exists w',
    write_playlist settings_dict kwargs found item w = (Return tt, w')
    /\ Fs.read (files w') (pl_path x) = Return (file_text lines)
    /\ length lines = length (locations (songs pl))
    /\ (Forall (fun l => has_linebreak l = false) lines ->
        splitlines (file_text lines) = lines)
    /\ (forall k, k <> Fs.components (pl_path x) -> files w' !! k = files w !! k).
Proof.
  intros Hitem Hx Hold lines.
  pose proof (title_in_catalog _ _ _ Hx) as Hin.
  unfold Fs.read, Fs.stat in Hold.
  destruct (OsPath.is_empty (pl_path x)) eqn:Hne; [done |].
  destruct (Fs.components (pl_path x)) as [|n k] eqn:Hk; [done |].
  destruct (files w !! (n :: k)) as [[|c]|] eqn:Hf; try done.
  destruct (endswith_char (pl_path x) "/") eqn:Hend; [done |].
  assert (Hopen : forall objs,
    Fs.open_w (files {| files := files w; objects := objs |}) (pl_path x)
    = Return (<[n :: k := File ""]> (files w), n :: k)).
  { intros objs. unfold Fs.open_w. cbn [files]. by rewrite Hne, Hend, Hk, Hf. }
  eexists. split; [| split; [| split; [| split]]].
  - unfold write_playlist. unfold mbind, M_bind. rewrite Hitem.
    rewrite bool_decide_eq_true_2 by done.
    destruct (filter _ found) as [|x' rest]; [done |]. injection Hx as ->.
    rewrite Hopen.
    rewrite (write_songs _ _ _ "") by (cbn; apply lookup_insert_eq).
    cbn [files objects]. rewrite insert_insert_eq, append_nil_l. reflexivity.
  - unfold Fs.read, Fs.stat. cbn [files].
    rewrite Hne, Hk, lookup_insert_eq, Hend. done.
  - unfold lines. by rewrite length_fmap.
  - apply splitlines_file_text.
  - intros k' Hk'. cbn [files]. by rewrite lookup_insert_ne.
Qed.

(** *** The playlist objects of the caller *)

Lemma fs_update_objects (op : filesystem -> outcome filesystem) (w : world) :
  objects (fs_update op w).2 = objects w.
Proof. unfold fs_update. by destruct (op (files w)). Qed.

Lemma bind_objects {A B : Type} (m : M A) (f : A -> M B) :
  (forall w, objects (m w).2 = objects w) ->
  (forall a w, objects (f a w).2 = objects w) ->
  forall w, objects ((m ≫= f) w).2 = objects w.
Proof.
  intros Hm Hf w. unfold mbind, M_bind. specialize (Hm w).
  destruct (m w) as [[a|e] w1]; cbn in *; [| done]. by rewrite Hf.
Qed.


Lemma prune_objects (config_dir : string) (fuel retention : nat)
  (backups backup_time : list string) (w : world) :
  objects (prune config_dir kwargs fuel retention backups backup_time w).2
  = objects w.
Proof.
  revert backups backup_time w.
  induction fuel as [|fuel IH]; intros backups backup_time w; cbn [prune];
    destruct (retention <? length backups); try done.
  destruct backup_time as [|t rest]; [done |].
  destruct (py_index _ _) as [i|]; [| done].
  destruct (backups !! i) as [b|]; [| done].
  apply bind_objects; [apply fs_update_objects | intros; apply IH].
Qed.

Lemma backup_playlists_objects (config_dir now : string) (w : world) :
  objects (backup_playlists config_dir settings_dict kwargs now w).2 = objects w.
Proof.
  unfold backup_playlists. apply bind_objects.
  - clear w. intros w. unfold make_backup_dir.
    pose proof (fs_update_objects
      (fun fs => Fs.makedirs fs (OsPath.dirname (backup_dir config_dir kwargs))) w) as H.
    destruct (fs_update _ w) as [[[]|[]] w1]; done.
  - clear w. intros _ w. unfold snapshot_and_prune.
    apply bind_objects; [done |]. intros retention w1.
    apply bind_objects; [destruct (0 <? retention); [apply fs_update_objects | done] |].
    intros _ w2. apply bind_objects; [done |]. intros backups w3.
    apply prune_objects.
Qed.





Lemma re_sub_from_legal (after : bool) (s : string) :
  has_illegal (re_sub_from after s) = false.
Proof.
  revert after. induction s as [|c s IH]; intros after; [done |].
  cbn [re_sub_from]. destruct (illegal c) eqn:Hc; [apply IH |].
  destruct (after && Ascii.eqb c " "); [apply IH |].
  cbn [has_illegal]. by rewrite Hc, IH.
Qed.


Lemma run_outputs_inv (config_dir now : string) (w w' : world) :
  run_outputs config_dir settings_dict kwargs now w = (Return tt, w') ->
  exists w1,
    backup_playlists config_dir settings_dict kwargs now w = (Return tt, w1)
    /\ for_each (songs_dict kwargs)
         (write_playlist settings_dict kwargs (playlists settings_dict (files w))) w1
       = (Return tt, w').
Proof.
  unfold run_outputs, mbind, M_bind, fs_query. intros H.
  destruct (backup_playlists _ _ _ _ w) as [[[]|e] w1]; [| done].
  by exists w1.
Qed.

Lemma run_outputs_eq
  (tags : filesystem -> string -> outcome SongRecord)
  (filter_list : list string -> string -> list string)
  (config_dir now : string) (w : world) :
  component kwargs = "outputs" ->
  run tags filter_list config_dir settings_dict kwargs now w
  = (run_outputs config_dir settings_dict kwargs now ≫= fun _ => mret None) w.
Proof. intros H. unfold run. by rewrite H. Qed.


(** *** Failures of the backup manager *)

(** A failing snapshot copy makes the second part of [backup_playlists]
    raise. *)
Lemma copytree_failure_raises (config_dir now : string) (w : world)
  (retention : nat) (e : exn) :
  dict_get retention_dict (s_retention settings_dict) = Return retention ->
  0 < retention ->
  Fs.copytree (files w) (path settings_dict)
    (OsPath.join2 (backup_dir config_dir kwargs) (runtime now)) = Raise e ->
  snapshot_and_prune config_dir settings_dict kwargs now w = (Raise e, w).
Proof.
  intros Hr Hpos Hcopy. unfold snapshot_and_prune, mbind, M_bind, lift.
  rewrite Hr. apply Nat.ltb_lt in Hpos. rewrite Hpos.
  unfold fs_update. by rewrite Hcopy.
Qed.

(** A failing removal makes the loop raise. *)
Lemma rmtree_failure_raises (config_dir : string) (w : world)
  (fuel retention : nat) (backups : list string) (t : string) (rest : list string)
  (oldest_backup : nat) (b : string) (e : exn) :
  retention < length backups ->
  py_index (t :: rest) (py_min t rest) = Some oldest_backup ->
  backups !! oldest_backup = Some b ->
  Fs.rmtree (files w) (OsPath.join2 (backup_dir config_dir kwargs) b) = Raise e ->
  prune config_dir kwargs (S fuel) retention backups (t :: rest) w = (Raise e, w).
Proof.
  intros Hlt Hi Hb Hrm. cbn [prune]. apply Nat.ltb_lt in Hlt. rewrite Hlt, Hi, Hb.
  unfold mbind, M_bind, fs_update. by rewrite Hrm.
Qed.

(** C5: [FileExistsError] from creating the backup folder is passed over
    and the backup goes on; an error raised after that, by the snapshot
    copy or by the removal of old backups, is the outcome of the whole
    job: [run] stops in the state the backup manager left, before any
    playlist object is renamed and any playlist file is opened. *)
Theorem backup_failure_aborts_job
  (tags : filesystem -> string -> outcome SongRecord)
  (filter_list : list string -> string -> list string)
  (config_dir now : string) (w : world) :
  component kwargs = "outputs" ->
  (Fs.makedirs (files w) (OsPath.dirname (backup_dir config_dir kwargs))
   = Raise FileExistsError ->
   make_backup_dir config_dir kwargs w = (Return tt, w)
   /\ backup_playlists config_dir settings_dict kwargs now w
      = snapshot_and_prune config_dir settings_dict kwargs now w)
  /\ (forall e,
        (make_backup_dir config_dir kwargs w).1 = Return tt ->
        (snapshot_and_prune config_dir settings_dict kwargs now
           (make_backup_dir config_dir kwargs w).2).1 = Raise e ->
        run tags filter_list config_dir settings_dict kwargs now w
        = (Raise e, (backup_playlists config_dir settings_dict kwargs now w).2)
        /\ objects (backup_playlists config_dir settings_dict kwargs now w).2
           = objects w).
Proof.
  intros Hc. split.
  - intros Hmk.
    assert (Hd : make_backup_dir config_dir kwargs w = (Return tt, w)).
    { unfold make_backup_dir, fs_update. by rewrite Hmk. }
    split; [done |]. unfold backup_playlists, mbind, M_bind. by rewrite Hd.
  - intros e Hmk Hsp.
    assert (Hb : (backup_playlists config_dir settings_dict kwargs now w).1 = Raise e).
    { unfold backup_playlists, mbind, M_bind.
      destruct (make_backup_dir config_dir kwargs w) as [[[]|e'] w1]; [| done].
      cbn [snd] in Hsp. by destruct (snapshot_and_prune _ _ _ _ w1). }
    split; [| apply backup_playlists_objects].
    rewrite run_outputs_eq by done.
    unfold mbind, M_bind, run_outputs, fs_query. unfold mbind, M_bind.
    destruct (backup_playlists _ _ _ _ w) as [o w2]. cbn in Hb. by subst o.
Qed.

End write.

Lemma existing_playlist_fully_replaced_witness :
  exists w',
    write_playlist (Sample.settings "No" "3 Backups") (Sample.outputs [0; 1])
      (playlists (Sample.settings "No" "3 Backups") Sample.library) 0
      Sample.sink_world = (Return tt, w')
    /\ Fs.read (files w') "/pl/mix.m3u"
       = Return (file_text ["D:\Music\a.mp3"; "D:\Music\sub\b.mp3"]).
Proof.
  destruct (existing_playlist_fully_replaced
              (Sample.settings "No" "3 Backups") (Sample.outputs [0; 1])
              (playlists (Sample.settings "No" "3 Backups") Sample.library) 0
              Sample.sink_world
              {| name := "mi:x"; id := ∅;
                 songs := [Sample.song_a; Sample.song_untagged; Sample.song_b] |}
              {| pl_name := "mix"; pl_path := "/pl/mix.m3u" |}
              (file_text ["#EXTM3U"; "D:/Music/a.mp3"; ""; "D:/Music/b.mp3"]))
    as (w' & H1 & H2 & _).
  - vm_compute. reflexivity.
  - vm_compute. reflexivity.
  - vm_compute. reflexivity.
  - exists w'. split; [exact H1 |].
    etransitivity; [exact H2 |]. vm_compute. reflexivity.
Defined.


Lemma backup_failure_aborts_job_witness :
  make_backup_dir "/config" (Sample.outputs [0; 1])
    {| files := Sample.library_with_backups; objects := Sample.incoming |}
  = (Return tt, {| files := Sample.library_with_backups; objects := Sample.incoming |})
  /\ (Sample.run_sample (Sample.settings "No" "3 Backups") (Sample.outputs [0; 1])
        "2020-06-01 12:00:00"
        {| files := Sample.library_no_root; objects := Sample.incoming |}).1
     = Raise FileNotFoundError.
Proof.
  assert (H1 : component (Sample.outputs [0; 1]) = "outputs") by reflexivity.
  assert (H2 : Fs.makedirs Sample.library_with_backups
                 (OsPath.dirname (backup_dir "/config" (Sample.outputs [0; 1])))
               = Raise FileExistsError) by (vm_compute; reflexivity).
  assert (H3 : (make_backup_dir "/config" (Sample.outputs [0; 1])
                  {| files := Sample.library_no_root; objects := Sample.incoming |}).1
               = Return tt) by (vm_compute; reflexivity).
  assert (H4 : (snapshot_and_prune "/config" (Sample.settings "No" "3 Backups")
                  (Sample.outputs [0; 1]) "2020-06-01 12:00:00"
                  (make_backup_dir "/config" (Sample.outputs [0; 1])
                     {| files := Sample.library_no_root;
                        objects := Sample.incoming |}).2).1
               = Raise FileNotFoundError) by (vm_compute; reflexivity).
  split.
  - exact (proj1 (proj1 (backup_failure_aborts_job
                           (Sample.settings "No" "3 Backups") _ Sample.tags
                           Sample.accept_all _ "2020-06-01 12:00:00"
                           {| files := Sample.library_with_backups;
                              objects := Sample.incoming |} H1) H2)).
  - unfold Sample.run_sample.
    rewrite (proj1 (proj2 (backup_failure_aborts_job
                             (Sample.settings "No" "3 Backups") _ Sample.tags
                             Sample.accept_all _ "2020-06-01 12:00:00" _ H1)
                      _ H3 H4)).
    reflexivity.
Defined.

End WritePipeline.

(** ** Facts about the file system *)

Module FsFacts.

Import Py PyFacts PathFacts Fs Spec.

Lemma strip_key_spec (d k r : list string) :
  strip_key d k = Some r <-> k = d ++ r.
Proof.
  revert k. induction d as [|x d IH]; intros k; cbn [strip_key app].
  - split; [by intros [= ->] | by intros ->].
  - destruct k as [|y k]; [done |]. case_decide as E.
    + subst y. rewrite IH. split; [by intros -> | by intros [= ->]].
    + split; [done | by intros [= -> _]].
Qed.

Lemma is_under_spec (d k : list string) :
  is_under d k = true <-> exists r, k = d ++ r.
Proof.
  unfold is_under. destruct (strip_key d k) as [r|] eqn:E.
  - apply strip_key_spec in E. split; [by exists r | done].
  - split; [done |]. intros [r Hr%strip_key_spec]. congruence.
Qed.

Lemma is_under_false_app (d k r : list string) :
  is_under d k = false -> is_under d (k ++ r) = true -> exists r', d = k ++ r'.
Proof.
  revert k. induction d as [|x d IH]; intros k Hk Hkr; [done |].
  destruct k as [|y k]; [by exists (x :: d) |].
  unfold is_under in *. cbn [strip_key app] in *. case_decide as E; [| done].
  subst y. destruct (IH k Hk Hkr) as [r' ->]. by exists r'.
Qed.

Lemma child_name_spec (d k : list string) (n : string) :
  child_name d k = Some n <-> k = d ++ [n] /\ valid_name n = true.
Proof.
  unfold child_name. destruct (strip_key d k) as [[|m [|m' r]]|] eqn:E.
  - apply strip_key_spec in E. split; [done |]. intros [-> _].
    rewrite app_nil_r in E. by apply (f_equal length) in E; rewrite length_app in E;
      cbn in E; lia.
  - apply strip_key_spec in E. subst k. destruct (valid_name m) eqn:V.
    + split; [by intros [= ->] |]. by intros [[= ->]%app_inv_head _].
    + split; [done |]. intros [[= ->]%app_inv_head ?]. congruence.
  - apply strip_key_spec in E. subst k. split; [done |].
    by intros [?%app_inv_head _].
  - split; [done |]. intros [-> _].
    assert (strip_key d (d ++ [n]) = Some [n]) by by apply strip_key_spec.
    congruence.
Qed.

Lemma elem_of_children (fs : filesystem) (d : list string) (n : string) :
  n ∈ children fs d <-> valid_name n = true /\ is_Some (fs !! (d ++ [n])).
Proof.
  unfold children. rewrite list_elem_of_omap. split.
  - intros ([k v] & Hkv & [E Hv]%child_name_spec). cbn in E. subst k.
    apply elem_of_map_to_list in Hkv. split; [done | by exists v].
  - intros [Hv [v Hk]]. exists (d ++ [n], v). split.
    + by apply elem_of_map_to_list.
    + by apply child_name_spec.
Qed.

Lemma NoDup_children (fs : filesystem) (d : list string) : NoDup (children fs d).
Proof.
  unfold children.
  pose proof (NoDup_fst_map_to_list fs) as Hnd.
  induction (map_to_list fs) as [|[k v] l IH]; [constructor |].
  cbn [fmap list_fmap] in Hnd. apply NoDup_cons in Hnd as [Hk Hnd].
  cbn [omap list_omap fst] in *.
  destruct (child_name d k) as [n|] eqn:E; [| by apply IH].
  apply NoDup_cons. split; [| by apply IH].
  rewrite list_elem_of_omap. intros ([k' v'] & Hin & E').
  apply child_name_spec in E as [-> _]. apply child_name_spec in E' as [E' _].
  cbn in E'. subst k'. apply Hk. by apply (list_elem_of_fmap_2 fst) in Hin.
Qed.

(** The listing of a directory only depends on which names are taken. *)
Lemma children_Permutation (fs1 fs2 : filesystem) (d : list string) :
  (forall n, valid_name n = true ->
     (is_Some (fs1 !! (d ++ [n])) <-> is_Some (fs2 !! (d ++ [n])))) ->
  children fs1 d ≡ₚ children fs2 d.
Proof.
  intros H. apply NoDup_Permutation; [apply NoDup_children .. |].
  intros n. rewrite !elem_of_children. split; intros [Hv Hs]; (split; [done |]);
    by apply (H n Hv).
Qed.

Lemma elem_of_ancestors_and_self (c k : list string) :
  k ∈ ancestors_and_self c <-> exists m, 1 <= m <= length c /\ k = take m c.
Proof.
  unfold ancestors_and_self.
  change (map ?f ?l) with (f <$> l). rewrite list_elem_of_fmap.
  split.
  - intros (m & -> & Hm%elem_of_seq). exists m. split; [lia | done].
  - intros (m & Hm & ->). exists m. split; [done |]. apply elem_of_seq. lia.
Qed.

Lemma foldl_mkdir_missing_lookup (ks : list (list string)) (fs : filesystem)
  (k : list string) :
  foldl mkdir_missing fs ks !! k =
    match fs !! k with
    | Some v => Some v
    | None => if bool_decide (k ∈ ks) then Some Dir else None
    end.
Proof.
  revert fs. induction ks as [|a ks IH]; intros fs; cbn [foldl].
  - by destruct (fs !! k).
  - rewrite IH. unfold mkdir_missing.
    destruct (decide (a = k)) as [->|Hne].
    + rewrite (bool_decide_eq_true_2 (k ∈ k :: ks)) by left.
      destruct (fs !! k) eqn:E; [by rewrite E |]. by rewrite lookup_insert_eq.
    + rewrite (bool_decide_ext (k ∈ a :: ks) (k ∈ ks))
        by (rewrite elem_of_cons; split; [by intros [->|?] | by right]).
      destruct (fs !! a) eqn:E; [done |]. by rewrite lookup_insert_ne.
Qed.

(** What [os.makedirs] changes: the missing prefixes of the path become
    directories. *)
Lemma makedirs_lookup (fs fs' : filesystem) (p : string) :
  makedirs fs p = Return fs' ->
  Fs.components p <> [] /\ fs !! Fs.components p = None /\
  forall k, fs' !! k =
    match fs !! k with
    | Some v => Some v
    | None => if bool_decide (k ∈ ancestors_and_self (Fs.components p))
              then Some Dir else None
    end.
Proof.
  unfold makedirs. destruct (OsPath.is_empty p); [done |].
  destruct (Fs.components p) as [|n c] eqn:Hc; [done |].
  destruct (fs !! (n :: c)) eqn:Hk; [done |].
  destruct (existsb _ _); [done |]. intros H.
  replace fs' with (foldl mkdir_missing fs (ancestors_and_self (n :: c)))
    by congruence.
  split; [done |]. split; [done |]. intros k. apply foldl_mkdir_missing_lookup.
Qed.

Lemma foldr_insert_lookup_notin (l : list (list string * node)) (fs : filesystem)
  (k : list string) :
  k ∉ l.*1 ->
  foldr (fun kv acc => <[kv.1 := kv.2]> acc) fs l !! k = fs !! k.
Proof.
  induction l as [|[k' v] l IH]; [done |]. cbn [fmap list_fmap foldr].
  rewrite not_elem_of_cons. intros [Hne Hl]. cbn in *.
  rewrite lookup_insert_ne by done. by apply IH.
Qed.

Lemma elem_of_copied_key (fs : filesystem) (src dst k : list string) :
  k ∈ (copied fs src dst).*1 -> exists n rel, k = dst ++ n :: rel.
Proof.
  unfold copied. rewrite list_elem_of_fmap. intros ([k' v] & -> & Hin).
  apply list_elem_of_omap in Hin as ([k0 v0] & _ & E). cbn in E.
  destruct (strip_key src k0) as [[|n rel]|]; try done.
  injection E as <- <-. by exists n, rel.
Qed.

(** What [shutil.copytree] changes among the keys that are not longer
    than the destination. *)
Lemma copytree_lookup (fs fs' : filesystem) (src dst : string) :
  copytree fs src dst = Return fs' ->
  Fs.components dst <> [] /\ fs !! Fs.components dst = None /\
  forall k, length k <= length (Fs.components dst) ->
    fs' !! k =
      match fs !! k with
      | Some v => Some v
      | None => if bool_decide (k ∈ ancestors_and_self (Fs.components dst))
                then Some Dir else None
      end.
Proof.
  unfold copytree. destruct (stat fs src) as [[|c]|e]; try done.
  destruct (makedirs fs dst) as [fs1|e] eqn:Hmk; [| done].
  apply makedirs_lookup in Hmk as (Hne & Hnone & Hfs1).
  intros H.
  assert (Hfs' : fs' = foldr (fun kv acc => <[kv.1 := kv.2]> acc) fs1
                         (copied fs (Fs.components src) (Fs.components dst))).
  { repeat (case_match; try congruence). }
  clear H. subst fs'. split; [done |]. split; [done |]. intros k Hlen.
  rewrite foldr_insert_lookup_notin; [apply Hfs1 |].
  intros (n & rel & ->)%elem_of_copied_key.
  rewrite length_app in Hlen. cbn in Hlen. lia.
Qed.

(** What [shutil.rmtree] changes: the keys under the path are gone. *)
Lemma rmtree_lookup (fs fs' : filesystem) (p : string) :
  rmtree fs p = Return fs' ->
  forall k, fs' !! k = if is_under (Fs.components p) k then None else fs !! k.
Proof.
  unfold rmtree. destruct (stat fs p) as [[|c]|e]; try done.
  intros [= <-] k. rewrite map_lookup_filter. cbn.
  destruct (fs !! k) as [v|]; cbn; [| by destruct (is_under _ k)].
  destruct (is_under _ k); by case_guard.
Qed.

Lemma open_w_inv (fs fs' : filesystem) (p : string) (f : list string) :
  open_w fs p = Return (fs', f) ->
  f = Fs.components p /\ f <> [] /\ fs' = <[f := File ""]> fs.
Proof.
  unfold open_w. destruct (OsPath.is_empty p); [done |].
  destruct (endswith_char p "/"); [done |].
  destruct (Fs.components p) as [|n c]; [done |].
  destruct (fs !! (n :: c)) as [[|?]|].
  - done.
  - by intros [= <- <-].
  - destruct (match parent (n :: c) with [] => _ | _ => _ end) as [[|?]|]; try done.
    by intros [= <- <-].
Qed.

Lemma write_lookup (fs : filesystem) (f k : list string) (s : string) :
  is_Some (Fs.write fs f s !! k) <-> is_Some (fs !! k).
Proof.
  unfold Fs.write. destruct (fs !! f) as [[|c]|] eqn:E; try done.
  destruct (decide (f = k)) as [->|Hne].
  - rewrite lookup_insert_eq, E. split; eauto.
  - by rewrite lookup_insert_ne.
Qed.

Lemma write_lookup_ne (fs : filesystem) (f k : list string) (s : string) :
  f <> k -> Fs.write fs f s !! k = fs !! k.
Proof.
  intros Hne. unfold Fs.write. destruct (fs !! f) as [[|c]|] eqn:E; try done.
  by rewrite lookup_insert_ne.
Qed.

(** *** Listings and walks *)

Lemma listdir_children (fs : filesystem) (p : string) (names : list string) :
  listdir fs p = Return names -> names = children fs (Fs.components p).
Proof.
  unfold listdir. destruct (stat fs p) as [[|c]|e]; try done. by intros [= <-].
Qed.

Lemma listdir_valid (fs : filesystem) (p : string) (names : list string) (n : string) :
  listdir fs p = Return names -> n ∈ names -> valid_name n = true.
Proof. intros ->%listdir_children [? _]%elem_of_children. done. Qed.

Lemma walk_under (fuel : nat) (fs : filesystem) (top : string)
  (t : string * list string * list string) :
  t ∈ walk fuel fs top ->
  (exists rel, Fs.components t.1.1 = Fs.components top ++ rel)
  /\ forall item, item ∈ t.2 -> valid_name item = true.
Proof.
  revert top. induction fuel as [|fuel IH]; intros top; cbn [walk];
    [by intros ?%not_elem_of_nil |].
  destruct (listdir fs top) as [names|e] eqn:Hls; [| by intros ?%not_elem_of_nil].
  intros [-> | Hin]%elem_of_cons.
  - split; [exists []; by rewrite app_nil_r |]. cbn [snd].
    intros item [_ Hitem]%list_elem_of_filter. by eapply listdir_valid.
  - apply list_elem_of_In, in_concat in Hin as (l & Hl & Ht).
    apply in_map_iff in Hl as (d & <- & Hd).
    apply list_elem_of_In, list_elem_of_filter in Hd as [_ Hd].
    apply list_elem_of_In, IH in Ht as [[rel Hrel] Hitems]. split; [| done].
    rewrite components_join2_name in Hrel by by eapply listdir_valid.
    exists (d :: rel). by rewrite Hrel, <- app_assoc.
Qed.

(** *** The fuel of [os.walk] *)

Lemma filter_length_lt {A : Type} (P Q : A -> Prop) `{!forall x, Decision (P x)}
  `{!forall x, Decision (Q x)} (l : list A) (a : A) :
  (forall x, P x -> Q x) -> a ∈ l -> Q a -> ~ P a ->
  length (filter P l) < length (filter Q l).
Proof.
  intros HPQ Ha HQ HP.
  assert (Hle : forall l', length (filter P l') <= length (filter Q l')).
  { induction l' as [|x l' IH]; [done |]. rewrite !filter_cons.
    destruct (decide (P x)) as [Hx|Hx].
    - rewrite decide_True by by apply HPQ. cbn [length]. lia.
    - destruct (decide (Q x)); cbn [length]; lia. }
  induction l as [|x l IH]; [by apply not_elem_of_nil in Ha |].
  rewrite !filter_cons. apply elem_of_cons in Ha as [<- | Ha].
  - rewrite decide_False, decide_True by done. cbn [length].
    specialize (Hle l). lia.
  - specialize (IH Ha). destruct (decide (P x)) as [Hx|Hx].
    + rewrite decide_True by by apply HPQ. cbn [length]. lia.
    + destruct (decide (Q x)); cbn [length]; lia.
Qed.

(** A sub-directory has fewer entries below it than its parent. *)
Lemma descendants_child (fs : filesystem) (d : list string) (n : string) :
  n ∈ children fs d -> descendants fs (d ++ [n]) < descendants fs d.
Proof.
  intros [Hv [v Hn]]%elem_of_children. unfold descendants.
  apply (filter_length_lt _ _ _ (d ++ [n])).
  - intros k [[r ->]%is_under_spec Hne]. split.
    + apply is_under_spec. exists (n :: r). by rewrite <- app_assoc.
    + intros E. apply (f_equal length) in E. rewrite !length_app in E.
      cbn [length] in E. lia.
  - apply (list_elem_of_fmap_2' fst _ (d ++ [n], v)); [| done].
    by apply elem_of_map_to_list.
  - split; [apply is_under_spec; by exists [n] |].
    intros E. apply (f_equal length) in E. rewrite length_app in E.
    cbn [length] in E. lia.
  - intros [_ ?]. done.
Qed.

Lemma descendants_le_size (fs : filesystem) (d : list string) :
  descendants fs d <= size fs.
Proof.
  unfold descendants. rewrite <- length_map_to_list.
  rewrite <- (length_fmap fst (map_to_list fs)). apply length_filter.
Qed.

(** [os.walk] does not depend on the fuel once it exceeds the number of
    entries below the top directory. *)
Lemma walk_fuel (fs : filesystem) (fuel1 fuel2 : nat) (top : string) :
  descendants fs (Fs.components top) < fuel1 ->
  descendants fs (Fs.components top) < fuel2 ->
  walk fuel1 fs top = walk fuel2 fs top.
Proof.
  revert fuel2 top. induction fuel1 as [|fuel1 IH]; intros fuel2 top H1 H2; [lia |].
  destruct fuel2 as [|fuel2]; [lia |]. cbn [walk].
  destruct (listdir fs top) as [names|e] eqn:Hls; [| done].
  f_equal. f_equal. apply map_ext_in. intros d Hd.
  apply list_elem_of_In, list_elem_of_filter in Hd as [_ Hd].
  apply listdir_children in Hls. subst names.
  pose proof (descendants_child _ _ _ Hd) as Hlt.
  apply elem_of_children in Hd as [Hv _].
  apply IH; rewrite components_join2_name by done; lia.
Qed.

(** The fuel [scan] gives to [os.walk] is enough: more fuel lists the same
    directories. *)
Lemma walk_fuel_enough (fs : filesystem) (fuel : nat) (top : string) :
  size fs < fuel -> walk fuel fs top = walk (S (size fs)) fs top.
Proof.
  intros H. pose proof (descendants_le_size fs (Fs.components top)).
  apply walk_fuel; lia.
Qed.

End FsFacts.

(** ** The backup manager *)

Module BackupManager.

Import Py PyFacts PathFacts Fs FsFacts Plugin Spec.

(** *** The order of the backup times *)

Lemma leb_spec (a b : string) :
  String.leb a b = true <-> a = b \/ OrderedTypeEx.String_as_OT.lt a b.
Proof.
  unfold String.leb.
  change (String.compare a b) with (OrderedTypeEx.String_as_OT.cmp a b).
  destruct (OrderedTypeEx.String_as_OT.cmp a b) eqn:E.
  - apply OrderedTypeEx.String_as_OT.cmp_eq in E. by split; [left |].
  - apply OrderedTypeEx.String_as_OT.cmp_lt in E. by split; [right |].
  - split; [done |]. intros [Heq | Hlt].
    + apply OrderedTypeEx.String_as_OT.cmp_eq in Heq. congruence.
    + apply OrderedTypeEx.String_as_OT.cmp_lt in Hlt. congruence.
Qed.

Lemma leb_refl (a : string) : String.leb a a = true.
Proof. apply leb_spec. by left. Qed.

Lemma leb_trans (a b c : string) :
  String.leb a b = true -> String.leb b c = true -> String.leb a c = true.
Proof.
  rewrite !leb_spec. intros [-> | Hab] [-> | Hbc]; auto.
  right. by apply (OrderedTypeEx.String_as_OT.lt_trans _ b).
Qed.

Lemma ltb_leb (a b : string) : String.ltb a b = true -> String.leb a b = true.
Proof. unfold String.ltb, String.leb. by destruct (String.compare a b). Qed.

Lemma ltb_false_leb (a b : string) :
  String.ltb a b = false -> String.leb b a = true.
Proof.
  unfold String.ltb, String.leb. rewrite (String.compare_antisym b a).
  by destruct (String.compare a b).
Qed.

(** [min] returns an element that is below all the others. *)
Lemma py_min_spec (x : string) (l : list string) :
  py_min x l ∈ x :: l
  /\ forall y, y ∈ x :: l -> String.leb (py_min x l) y = true.
Proof.
  revert x. induction l as [|z l IH]; intros x; cbn [py_min].
  - split; [left |]. intros y ->%list_elem_of_singleton. apply leb_refl.
  - destruct (IH (if String.ltb z x then z else x)) as [Hin Hle].
    assert (Hx : String.leb (if String.ltb z x then z else x) x = true).
    { destruct (String.ltb z x) eqn:E; [by apply ltb_leb | apply leb_refl]. }
    assert (Hz : String.leb (if String.ltb z x then z else x) z = true).
    { destruct (String.ltb z x) eqn:E; [apply leb_refl | by apply ltb_false_leb]. }
    split.
    + apply elem_of_cons in Hin as [-> | Hin].
      * destruct (String.ltb z x); [right; left | left].
      * by do 2 right.
    + intros y Hy. apply elem_of_cons in Hy as [-> | Hy].
      * eapply leb_trans; [| exact Hx]. apply Hle. left.
      * apply elem_of_cons in Hy as [-> | Hy].
        -- eapply leb_trans; [| exact Hz]. apply Hle. left.
        -- apply Hle. by right.
Qed.

Lemma py_index_spec (l : list string) (x : string) :
  x ∈ l -> exists i, py_index l x = Some i /\ l !! i = Some x.
Proof.
  induction l as [|y l IH]; [by intros ?%not_elem_of_nil |].
  intros Hin. cbn [py_index]. destruct (String.eqb_spec y x) as [->|Hne].
  - by exists 0.
  - apply elem_of_cons in Hin as [-> | Hin]; [done |].
    destruct (IH Hin) as (i & -> & Hi). by exists (S i).
Qed.

Lemma py_index_lookup (l : list string) (x : string) (i : nat) :
  py_index l x = Some i -> l !! i = Some x.
Proof.
  revert i. induction l as [|y l IH]; intros i; [done |]. cbn [py_index].
  destruct (String.eqb_spec y x) as [->|Hne]; [by intros [= <-] |].
  destruct (py_index l x) as [j|]; [| done]. intros [= <-]. by apply IH.
Qed.

(** The oldest backup: its index is found, and no backup is older. *)
Lemma oldest_backup_spec (b0 : string) (backups : list string) :
  exists i b,
    py_index (backup_time <$> b0 :: backups)
      (py_min (backup_time b0) (backup_time <$> backups)) = Some i
    /\ (b0 :: backups) !! i = Some b
    /\ forall y, y ∈ b0 :: backups ->
         String.leb (backup_time b) (backup_time y) = true.
Proof.
  destruct (py_min_spec (backup_time b0) (backup_time <$> backups)) as [Hin Hle].
  change (backup_time b0 :: (backup_time <$> backups))
    with (backup_time <$> b0 :: backups) in *.
  destruct (py_index_spec _ _ Hin) as (i & Hi & Hl).
  rewrite list_lookup_fmap in Hl.
  destruct ((b0 :: backups) !! i) as [b|] eqn:Hb; [| done].
  injection Hl as Hl. exists i, b. split; [done |]. split; [done |].
  intros y Hy. rewrite Hl. apply Hle. by apply list_elem_of_fmap_2.
Qed.

(** *** The names of the snapshots *)

(** Replacing one character by another. *)
Lemma replace_char_cons (c a b : ascii) (s : string) :
  replace (String c s) (String a "") (String b "")
  = String (if Ascii.eqb a c then b else c) (replace s (String a "") (String b "")).
Proof.
  unfold replace. cbn [replace_from startswith String.length].
  destruct (Ascii.eqb a c); [| done]. by destruct s.
Qed.

Lemma replace_char_no_separator (a b : ascii) (s : string) :
  Ascii.eqb "/" b = false ->
  contains s "/" = false ->
  contains (replace s (String a "") (String b "")) "/" = false.
Proof.
  intros Hb. induction s as [|c s IH]; [done |].
  rewrite replace_char_cons, !contains_char_cons.
  intros [Hc Hs]%orb_false_iff. rewrite IH by done.
  by destruct (Ascii.eqb a c); rewrite ?Hb, ?Hc.
Qed.

Lemma replace_char_nonempty (a b : ascii) (s : string) :
  OsPath.is_empty s = false ->
  OsPath.is_empty (replace s (String a "") (String b "")) = false.
Proof. destruct s as [|c s]; [done |]. by rewrite replace_char_cons. Qed.

(** The name of a snapshot is a directory name as soon as the clock
    reading is not empty and holds no separator, as the text of a date
    and time does. *)
Lemma runtime_valid (now : string) :
  OsPath.is_empty now = false -> contains now "/" = false ->
  valid_name (runtime now) = true.
Proof.
  intros Hne Hs. unfold runtime, valid_name.
  rewrite replace_char_nonempty by by apply replace_char_nonempty.
  rewrite replace_char_no_separator; [done | done |].
  by apply replace_char_no_separator.
Qed.

Section backups.

Variable config_dir : string.
Variable kwargs : Kwargs.

Local Abbreviation D := (backup_dir config_dir kwargs).
Local Abbreviation Dc := (backup_root config_dir kwargs).

(** *** The backups folder *)

Lemma backup_dir_trailing_sep :
  endswith_char D "/" = true /\ OsPath.is_empty D = false.
Proof.
  unfold backup_dir, OsPath.join. cbn [foldl].
  set (y := OsPath.join2 (OsPath.join2 _ "backups") _).
  assert (Hy : OsPath.is_empty y = false).
  { apply join2_nonempty_l. by apply join2_nonempty_r. }
  assert (Hne : OsPath.is_empty (OsPath.join2 y "") = false)
    by by apply join2_nonempty_l.
  split; [| done].
  destruct (join2_empty_r y) as [E | E]; [| done]. by rewrite E in Hne.
Qed.

Lemma makedirs_backup_dir_key :
  Fs.components (OsPath.dirname D) = Dc.
Proof. apply dirname_trailing_sep, backup_dir_trailing_sep. Qed.

Lemma backup_entry_key (b : string) :
  valid_name b = true -> Fs.components (OsPath.join2 D b) = Dc ++ [b].
Proof. apply components_join2_name. Qed.

Lemma stat_backup_dir (fs : filesystem) :
  stat fs D =
    match Dc with
    | [] => Return Dir
    | _ => match fs !! Dc with
           | None => Raise FileNotFoundError
           | Some Dir => Return Dir
           | Some (File _) => Raise NotADirectoryError
           end
    end.
Proof.
  destruct backup_dir_trailing_sep as [Hs Hne]. unfold stat, backup_root.
  rewrite Hne. destruct (Fs.components D); [done |].
  destruct (fs !! _) as [[|c]|]; try done. by rewrite Hs.
Qed.

Lemma stat_backup_dir_ext (fs1 fs2 : filesystem) :
  fs1 !! Dc = fs2 !! Dc -> stat fs1 D = stat fs2 D.
Proof. intros H. by rewrite !stat_backup_dir, H. Qed.

Lemma rmtree_backup_entry (fs : filesystem) (b : string) :
  valid_name b = true ->
  rmtree fs (OsPath.join2 D b) =
    match fs !! (Dc ++ [b]) with
    | Some Dir => Return (filter (fun kv => is_under (Dc ++ [b]) kv.1 = false) fs)
    | Some (File _) => Raise NotADirectoryError
    | None => Raise FileNotFoundError
    end.
Proof.
  intros Hb. destruct backup_dir_trailing_sep as [Hs Hne].
  unfold rmtree, stat. rewrite join2_nonempty_l by done.
  rewrite backup_entry_key by done.
  destruct (Dc ++ [b]) as [|x k] eqn:E; [by destruct Dc |].
  destruct (fs !! (x :: k)) as [[|c]|]; try done.
  by destruct (endswith_char (OsPath.join2 D b) "/").
Qed.

(** Removing one backup leaves the folder and the other backups alone. *)
Lemma rmtree_backup_entry_lookup (fs fs' : filesystem) (b : string) :
  valid_name b = true ->
  rmtree fs (OsPath.join2 D b) = Return fs' ->
  fs' !! Dc = fs !! Dc
  /\ forall n, fs' !! (Dc ++ [n]) = if decide (n = b) then None else fs !! (Dc ++ [n]).
Proof.
  intros Hb Hrm. pose proof (rmtree_lookup _ _ _ Hrm) as H.
  rewrite backup_entry_key in H by done. split.
  - rewrite H. destruct (is_under (Dc ++ [b]) Dc) eqn:E; [| done].
    apply is_under_spec in E as [r E]. apply (f_equal length) in E.
    rewrite !length_app in E. cbn in E. lia.
  - intros n. rewrite H. case_decide as E.
    + subst n. replace (is_under (Dc ++ [b]) (Dc ++ [b])) with true; [done |].
      symmetry. apply is_under_spec. exists []. by rewrite app_nil_r.
    + destruct (is_under (Dc ++ [b]) (Dc ++ [n])) eqn:U; [| done].
      apply is_under_spec in U as [r U]. rewrite <- app_assoc in U.
      apply app_inv_head in U. by injection U as -> _.
Qed.

(** *** The pruning loop *)

(** The loop keeps the [retention] most recent backups of the listing it
    starts from, and removes the others from the folder. *)
Lemma prune_spec (retention : nat) (fuel : nat) (backups : list string)
  (w w' : world) :
  length backups <= fuel ->
  NoDup backups ->
  (forall n, n ∈ backups <-> n ∈ children (files w) Dc) ->
  prune config_dir kwargs fuel retention backups (backup_time <$> backups) w
  = (Return tt, w') ->
  exists kept removed,
    backups ≡ₚ kept ++ removed
    /\ NoDup kept
    /\ (forall n, n ∈ kept <-> n ∈ children (files w') Dc)
    /\ length kept = retention `min` length backups
    /\ oldest_first removed kept
    /\ files w' !! Dc = files w !! Dc.
Proof.
  revert backups w. induction fuel as [|fuel IH]; intros backups w Hlen Hnd Hmem Hrun;
    cbn [prune] in Hrun; destruct (retention <? length backups) eqn:Hlt.
  - apply Nat.ltb_lt in Hlt. lia.
  - injection Hrun as <-. apply Nat.ltb_ge in Hlt.
    exists backups, []. rewrite app_nil_r. repeat split; try done; try apply Hmem.
    + lia.
    + by intros x y ?%not_elem_of_nil.
  - apply Nat.ltb_lt in Hlt.
    destruct backups as [|b0 bs]; [cbn in Hlt; lia |].
    destruct (oldest_backup_spec b0 bs) as (i & b & Hi & Hb & Hmin).
    cbn [fmap list_fmap] in Hrun, Hi. rewrite Hi, Hb in Hrun.
    assert (Hvalid : valid_name b = true).
    { apply list_elem_of_lookup_2 in Hb. apply Hmem in Hb.
      by apply elem_of_children in Hb as [? _]. }
    unfold mbind, M_bind, fs_update in Hrun.
    destruct (rmtree (files w) (OsPath.join2 D b)) as [fs1|e] eqn:Hrm; [| done].
    destruct (rmtree_backup_entry_lookup _ _ _ Hvalid Hrm) as [HD Hent].
    pose proof (delete_Permutation _ _ _ Hb) as Hperm.
    assert (Hnd1 : NoDup (b :: delete i (b0 :: bs))) by by rewrite <- Hperm.
    apply NoDup_cons in Hnd1 as [Hnotin Hnd1].
    change (backup_time b0 :: (backup_time <$> bs))
      with (backup_time <$> b0 :: bs) in Hrun.
    rewrite <- list_fmap_delete in Hrun.
    apply IH in Hrun as (kept & removed & Hp & Hk & Hm & Hl & Ho & HD').
    + exists kept, (b :: removed). repeat split.
      * rewrite Hperm, Hp. apply Permutation_middle.
      * done.
      * by intros ?%Hm.
      * by intros ?%Hm.
      * rewrite Hl, length_delete by done. cbn [length] in *. lia.
      * intros x y [-> | Hx]%elem_of_cons Hy.
        -- apply Hmin. rewrite Hperm. right. rewrite Hp.
           apply elem_of_app. by left.
        -- by apply Ho.
      * by rewrite HD'.
    + rewrite length_delete by done. cbn [length] in *. lia.
    + done.
    + intros n. cbn [files]. rewrite elem_of_children, Hent.
      split.
      * intros Hn. assert (n ∈ b0 :: bs) as Hn' by (rewrite Hperm; by right).
        apply Hmem, elem_of_children in Hn' as [Hv Hs]. split; [done |].
        case_decide; [by subst | done].
      * intros [Hv Hs]. case_decide as E; [by destruct Hs |].
        assert (n ∈ b0 :: bs) as Hn'
          by (apply Hmem, elem_of_children; by split).
        rewrite Hperm in Hn'. by apply elem_of_cons in Hn' as [-> | ?].
  - injection Hrun as <-. apply Nat.ltb_ge in Hlt.
    exists backups, []. rewrite app_nil_r. repeat split; try done; try apply Hmem.
    + lia.
    + by intros x y ?%not_elem_of_nil.
Qed.

(** The loop of [backup_playlists] does not depend on the fuel once it
    covers the length of the listing. *)
Lemma prune_fuel (retention fuel : nat) (backups times : list string) (w : world) :
  length backups <= fuel ->
  prune config_dir kwargs fuel retention backups times w
  = prune config_dir kwargs (length backups) retention backups times w.
Proof.
  revert backups times w. induction fuel as [|fuel IH]; intros backups times w Hlen.
  - by replace (length backups) with 0 by lia.
  - destruct backups as [|b0 bs] eqn:Eb; [done |]. rewrite <- Eb in *.
    assert (Hl : length backups = S (length bs)) by by rewrite Eb.
    rewrite Hl. cbn [prune]. destruct (retention <? length backups); [| done].
    destruct times as [|t rest]; [done |].
    destruct (py_index _ _) as [i|]; [| done].
    destruct (backups !! i) as [b|] eqn:Hb; [| done].
    unfold mbind, M_bind. destruct (fs_update _ w) as [[[]|e] w1]; [| done].
    assert (Hd : length (delete i backups) = length bs).
    { rewrite length_delete by done. lia. }
    rewrite IH by lia. by rewrite Hd.
Qed.

(** The loop does not fail when every backup is a directory. *)
Lemma prune_succeeds (retention : nat) (fuel : nat) (backups : list string)
  (w : world) :
  (forall n, n ∈ backups -> valid_name n = true) ->
  (forall n, n ∈ backups -> files w !! (Dc ++ [n]) = Some Dir) ->
  NoDup backups ->
  (prune config_dir kwargs fuel retention backups (backup_time <$> backups) w).1
  = Return tt.
Proof.
  revert backups w. induction fuel as [|fuel IH]; intros backups w Hv Hdir Hnd;
    cbn [prune]; destruct (retention <? length backups) eqn:Hlt; try done.
  apply Nat.ltb_lt in Hlt.
  destruct backups as [|b0 bs]; [cbn in Hlt; lia |].
  destruct (oldest_backup_spec b0 bs) as (i & b & Hi & Hb & Hmin).
  cbn [fmap list_fmap] in Hi |- *. rewrite Hi, Hb.
  assert (Hin : b ∈ b0 :: bs) by by apply list_elem_of_lookup_2 in Hb.
  unfold mbind, M_bind, fs_update.
  pose proof (rmtree_backup_entry (files w) b (Hv b Hin)) as Hrm.
  rewrite (Hdir b Hin) in Hrm. rewrite Hrm.
  pose proof (delete_Permutation _ _ _ Hb) as Hperm.
  assert (Hnd1 : NoDup (b :: delete i (b0 :: bs))) by by rewrite <- Hperm.
  apply NoDup_cons in Hnd1 as [Hnotin Hnd1].
  change (backup_time b0 :: (backup_time <$> bs)) with (backup_time <$> b0 :: bs).
  rewrite <- list_fmap_delete. apply IH; [| | done].
  - intros n Hn. apply Hv. rewrite Hperm. by right.
  - intros n Hn. cbn [files].
    destruct (rmtree_backup_entry_lookup _ _ _ (Hv b Hin) Hrm) as [_ Hent].
    rewrite Hent. case_decide; [by subst |]. apply Hdir. rewrite Hperm. by right.
Qed.

(** *** One run of the backup manager *)

Variable settings_dict : Settings.
Variable now : string.

Lemma not_ancestor_longer (c k : list string) :
  length c < length k -> k ∉ ancestors_and_self c.
Proof.
  intros Hlen (m & Hm & ->)%elem_of_ancestors_and_self.
  rewrite length_take in Hlen. lia.
Qed.

(** Creating the backups folder does not touch its entries. *)
Lemma make_backup_dir_spec (w w1 : world) :
  make_backup_dir config_dir kwargs w = (Return tt, w1) ->
  objects w1 = objects w
  /\ forall n, files w1 !! (Dc ++ [n]) = files w !! (Dc ++ [n]).
Proof.
  unfold make_backup_dir, fs_update.
  destruct (makedirs (files w) (OsPath.dirname D)) as [fs1|e] eqn:Hmk.
  - intros [= <-]. split; [done |]. intros n. cbn [files].
    apply makedirs_lookup in Hmk as (_ & _ & ->).
    rewrite makedirs_backup_dir_key. destruct (files w !! (Dc ++ [n])); [done |].
    rewrite bool_decide_eq_false_2; [done |]. apply not_ancestor_longer.
    rewrite length_app. cbn [length]. lia.
  - destruct e; try done. by intros [= <-].
Qed.

(** A successful snapshot copy adds one entry, named by the clock. *)
Lemma copytree_backup_spec (fs fs' : filesystem) :
  valid_name (runtime now) = true ->
  copytree fs (path settings_dict) (OsPath.join2 D (runtime now)) = Return fs' ->
  fs !! (Dc ++ [runtime now]) = None
  /\ forall n, is_Some (fs' !! (Dc ++ [n]))
               <-> n = runtime now \/ is_Some (fs !! (Dc ++ [n])).
Proof.
  intros Hv Hcp. apply copytree_lookup in Hcp as (_ & Hnone & Hfs').
  rewrite backup_entry_key in * by done. split; [done |]. intros n.
  rewrite Hfs' by (rewrite !length_app; cbn [length]; lia).
  destruct (fs !! (Dc ++ [n])) as [v|] eqn:E.
  - split; [intros _; right; eauto | intros _; eauto].
  - case_bool_decide as Hin.
    + apply elem_of_ancestors_and_self in Hin as (m & Hm & Hin).
      rewrite length_app in Hm. cbn [length] in Hm.
      destruct (decide (m = length Dc + 1)) as [->|Hne].
      * rewrite take_ge in Hin by (rewrite length_app; cbn [length]; lia).
        apply app_inv_head in Hin. injection Hin as ->. split; eauto.
      * apply (f_equal length) in Hin.
        rewrite length_take, !length_app in Hin. cbn [length] in Hin. lia.
    + split; [by intros [? ?] |]. intros [-> | [? ?]]; [| done].
      exfalso. apply Hin, elem_of_ancestors_and_self.
      exists (length Dc + 1). rewrite length_app. cbn [length]. split; [lia |].
      rewrite take_ge; [done |]. rewrite length_app. cbn [length]. lia.
Qed.

(** The second part of [backup_playlists]: after it the folder holds the
    [retention] most recent of the earlier backups and the new one. *)
Lemma snapshot_and_prune_spec (retention : nat) (w w' : world) :
  dict_get retention_dict (s_retention settings_dict) = Return retention ->
  (0 < retention -> valid_name (runtime now) = true) ->
  snapshot_and_prune config_dir settings_dict kwargs now w = (Return tt, w') ->
  exists kept removed,
    children (files w) Dc ++ (if 0 <? retention then [runtime now] else [])
      ≡ₚ kept ++ removed
    /\ children (files w') Dc ≡ₚ kept
    /\ length kept
       = retention `min` (length (children (files w) Dc)
                          + (if 0 <? retention then 1 else 0))
    /\ oldest_first removed kept
    /\ stat (files w') D = Return Dir
    /\ objects w' = objects w.
Proof.
  intros Hr Hv Hrun. unfold snapshot_and_prune, mbind, M_bind, lift in Hrun.
  rewrite Hr in Hrun.
  (* the snapshot copy *)
  assert (exists w1,
    (if 0 <? retention
     then fs_update (fun fs => copytree fs (path settings_dict)
                                 (OsPath.join2 D (runtime now)))
     else mret tt) w = (Return tt, w1)
    /\ children (files w1) Dc
       ≡ₚ children (files w) Dc ++ (if 0 <? retention then [runtime now] else [])
    /\ objects w1 = objects w) as (w1 & Hcp & Hch & Hobj).
  { destruct (0 <? retention) eqn:Hpos.
    - apply Nat.ltb_lt in Hpos. specialize (Hv Hpos). unfold fs_update in *.
      destruct (copytree (files w) _ _) as [fs1|e] eqn:Hcp; [| done].
      eexists. split; [done |]. split; [| done]. cbn [files].
      destruct (copytree_backup_spec _ _ Hv Hcp) as [Hnone Hent].
      apply NoDup_Permutation.
      + apply NoDup_children.
      + apply NoDup_app. split; [apply NoDup_children |]. split.
        * intros n [_ [v Hn]]%elem_of_children ->%list_elem_of_singleton.
          congruence.
        * apply NoDup_singleton.
      + intros n. rewrite elem_of_app, !elem_of_children, list_elem_of_singleton, Hent.
        split.
        * intros [Hn [-> | Hs]]; [by right | by left].
        * intros [[Hn Hs] | ->]; (split; [done |]); [by right | by left].
    - exists w. split; [done |]. by rewrite app_nil_r. }
  rewrite Hcp in Hrun. unfold fs_query, listdir in Hrun.
  destruct (stat (files w1) D) as [[|c]|e] eqn:Hst; try done.
  cbn [fst snd] in Hrun. fold (backup_root config_dir kwargs) in Hrun.
  change (map (fun b => replace b "-" "") ?l) with (backup_time <$> l) in Hrun.
  assert (Hobj' : objects w' = objects w1).
  { rewrite <- (WritePipeline.prune_objects kwargs config_dir
                  (length (children (files w1) Dc)) retention
                  (children (files w1) Dc)
                  (backup_time <$> children (files w1) Dc) w1).
    by rewrite Hrun. }
  apply prune_spec in Hrun as (kept & removed & Hp & Hk & Hm & Hl & Ho & HD);
    [| done | apply NoDup_children | done].
  exists kept, removed. split; [by rewrite <- Hch, Hp |]. split.
  { apply NoDup_Permutation; [apply NoDup_children | done |]. intros n. by rewrite Hm. }
  split; [by rewrite Hl, Hch, length_app; destruct (0 <? retention) |].
  split; [done |]. split; [by rewrite (stat_backup_dir_ext _ (files w1)) |].
  congruence.
Qed.

Lemma backup_playlists_spec (retention : nat) (w w' : world) :
  dict_get retention_dict (s_retention settings_dict) = Return retention ->
  (0 < retention -> valid_name (runtime now) = true) ->
  backup_playlists config_dir settings_dict kwargs now w = (Return tt, w') ->
  exists kept removed,
    children (files w) Dc ++ (if 0 <? retention then [runtime now] else [])
      ≡ₚ kept ++ removed
    /\ children (files w') Dc ≡ₚ kept
    /\ length kept
       = retention `min` (length (children (files w) Dc)
                          + (if 0 <? retention then 1 else 0))
    /\ oldest_first removed kept
    /\ stat (files w') D = Return Dir
    /\ objects w' = objects w.
Proof.
  intros Hr Hv Hrun. unfold backup_playlists, mbind, M_bind in Hrun.
  destruct (make_backup_dir config_dir kwargs w) as [[[]|e] w1] eqn:Hmk; [| done].
  apply make_backup_dir_spec in Hmk as [Hobj Hent].
  assert (Hch : children (files w1) Dc ≡ₚ children (files w) Dc).
  { apply children_Permutation. intros n _. by rewrite Hent. }
  destruct (snapshot_and_prune_spec _ _ _ Hr Hv Hrun)
    as (kept & removed & Hp & Hk & Hl & Ho & Hst & Hobj').
  exists kept, removed. rewrite <- Hch. repeat split; try done. congruence.
Qed.

(** *** The catalog lies under the playlist directory *)

(** Every playlist of the catalog lies below the playlist directory. *)
Lemma playlists_under_root (fs : filesystem) (x : PlaylistFileRef) :
  x ∈ playlists settings_dict fs ->
  exists rel, rel <> []
    /\ Fs.components (pl_path x) = Fs.components (path settings_dict) ++ rel.
Proof.
  unfold playlists. intros [_ Hx]%list_elem_of_filter. revert Hx. unfold scan.
  destruct (String.eqb (s_recursive settings_dict) "Yes").
  - intros Hx. apply list_elem_of_In, in_concat in Hx as (l & Hl & Hx).
    apply in_map_iff in Hl as (t & <- & Ht).
    apply in_map_iff in Hx as (item & <- & Hitem). cbn [pl_path].
    apply list_elem_of_In, walk_under in Ht as [[rel Hrel] Hitems].
    rewrite components_join2_name by by apply Hitems, list_elem_of_In.
    exists (rel ++ [item]). split; [by destruct rel |].
    by rewrite Hrel, <- app_assoc.
  - destruct (listdir fs (path settings_dict)) as [names|e] eqn:Hls;
      [| by intros ?%not_elem_of_nil].
    cbn. intros Hx. apply list_elem_of_In, in_map_iff in Hx as (item & <- & Hitem).
    cbn [pl_path]. exists [item]. split; [done |].
    apply components_join2_name. eapply listdir_valid; [done |].
    by apply list_elem_of_In.
Qed.

(** *** The write pipeline leaves the backups folder alone *)

Lemma legal_no_separator (s : string) :
  has_illegal s = false -> contains s "/" = false.
Proof.
  induction s as [|c s IH]; [done |]. cbn [has_illegal].
  intros [Hc Hs]%orb_false_iff. rewrite contains_char_cons, IH by done.
  destruct (Ascii.eqb_spec "/" c) as [<-|]; [done | done].
Qed.

Lemma new_playlist_name_valid (title : string) :
  valid_name (re_sub_title title +:+ ".m3u") = true.
Proof.
  apply valid_name_spec. split.
  - by destruct (re_sub_title title).
  - rewrite contains_char_append, legal_no_separator; [done |].
    apply WritePipeline.re_sub_from_legal.
Qed.

Lemma not_under_backup_root (rel : list string) :
  is_under (Fs.components (path settings_dict)) Dc = false ->
  rel <> [] ->
  Fs.components (path settings_dict) ++ rel <> Dc
  /\ forall n, Fs.components (path settings_dict) ++ rel <> Dc ++ [n].
Proof.
  intros Hu Hrel. split.
  - intros E. assert (is_under (Fs.components (path settings_dict)) Dc = true)
      by (apply is_under_spec; eauto). congruence.
  - intros n E. destruct (exists_last Hrel) as (rel' & x & ->).
    rewrite app_assoc in E. apply app_inj_tail in E as [E _].
    assert (is_under (Fs.components (path settings_dict)) Dc = true)
      by (apply is_under_spec; eauto). congruence.
Qed.

Lemma write_loop_lookup (f k : list string) (l : list SongRecord) (w : world) :
  f <> k ->
  files (for_each l (fun song : SongRecord =>
    match song !! "location" with
    | None => mret tt
    | Some location =>
        fs_update (fun fs =>
          Return (Fs.write fs f (playlist_line kwargs location +:+ newline)))
    end) w).2 !! k = files w !! k.
Proof.
  intros Hne. revert w. induction l as [|song l IH]; intros w; [done |].
  cbn [for_each]. unfold mbind, M_bind.
  destruct (song !! "location") as [location|]; [| apply IH].
  unfold fs_update at 1. rewrite IH. cbn [files]. by apply write_lookup_ne.
Qed.

Lemma write_playlist_frame (found : list PlaylistFileRef) (item : nat)
  (w : world) (k : list string) :
  (forall x, x ∈ found ->
     exists rel, rel <> []
       /\ Fs.components (pl_path x) = Fs.components (path settings_dict) ++ rel) ->
  (forall rel, rel <> [] -> Fs.components (path settings_dict) ++ rel <> k) ->
  files (write_playlist settings_dict kwargs found item w).2 !! k = files w !! k.
Proof.
  intros Hcat Hk. unfold write_playlist.
  unfold mbind at 1, M_bind at 1. destruct (objects w !! item) as [pl|]; [| done].
  unfold mbind at 1, M_bind at 1.
  set (w1 := {| files := files w; objects := _ |}).
  change (files w) with (files w1). generalize w1. clear w1. intros w1.
  assert (Hopen : forall p rel,
    rel <> [] -> Fs.components p = Fs.components (path settings_dict) ++ rel ->
    files (((fun w0 : world =>
              match open_w (files w0) p with
              | Return (fs', f) => (Return f, {| files := fs'; objects := objects w0 |})
              | Raise e => (Raise e, w0)
              end) ≫= (fun f => for_each (songs pl) (fun song : SongRecord =>
                match song !! "location" with
                | None => mret tt
                | Some location =>
                    fs_update (fun fs =>
                      Return (Fs.write fs f (playlist_line kwargs location +:+ newline)))
                end))) w1).2 !! k = files w1 !! k).
  { intros p rel Hrel Hp. unfold mbind, M_bind.
    destruct (open_w (files w1) p) as [[fs' f]|e] eqn:Ho; [| done].
    apply open_w_inv in Ho as (-> & _ & ->).
    assert (Fs.components p <> k) by (rewrite Hp; by apply Hk).
    rewrite write_loop_lookup by done. cbn [files]. by rewrite lookup_insert_ne. }
  case_bool_decide as Hin.
  - destruct (filter _ found) as [|x rest] eqn:Hf; [done |].
    assert (Hx : x ∈ found).
    { assert (Hx' : x ∈ filter (fun x => pl_name x = re_sub_title (name pl)) found)
        by (rewrite Hf; left).
      by apply list_elem_of_filter in Hx' as [_ ?]. }
    destruct (Hcat x Hx) as (rel & Hrel & Hp). by apply (Hopen _ rel).
  - apply (Hopen _ [re_sub_title (name pl) +:+ ".m3u"]); [done |].
    apply components_join2_name, new_playlist_name_valid.
Qed.

Lemma write_playlists_frame (found : list PlaylistFileRef) (refs : list nat)
  (w : world) (k : list string) :
  (forall x, x ∈ found ->
     exists rel, rel <> []
       /\ Fs.components (pl_path x) = Fs.components (path settings_dict) ++ rel) ->
  (forall rel, rel <> [] -> Fs.components (path settings_dict) ++ rel <> k) ->
  files (for_each refs (write_playlist settings_dict kwargs found) w).2 !! k
  = files w !! k.
Proof.
  intros Hcat Hk. revert w. induction refs as [|r refs IH]; intros w; [done |].
  cbn [for_each]. unfold mbind, M_bind.
  pose proof (write_playlist_frame found r w k Hcat Hk) as Hstep.
  destruct (write_playlist _ _ found r w) as [[[]|e] w1]; [| done].
  by rewrite IH.
Qed.

(** *** One job of component "outputs" *)

Lemma oldest_first_Permutation (removed kept kept' : list string) :
  kept ≡ₚ kept' -> oldest_first removed kept -> oldest_first removed kept'.
Proof. intros Hp Ho x y Hx Hy. apply Ho; [done |]. by rewrite Hp. Qed.

Lemma run_outputs_backups (retention : nat) (w w' : world) :
  dict_get retention_dict (s_retention settings_dict) = Return retention ->
  (0 < retention -> valid_name (runtime now) = true) ->
  is_under (Fs.components (path settings_dict)) Dc = false ->
  run_outputs config_dir settings_dict kwargs now w = (Return tt, w') ->
  exists removed,
    snapshots config_dir kwargs w ++ (if 0 <? retention then [runtime now] else [])
      ≡ₚ snapshots config_dir kwargs w' ++ removed
    /\ length (snapshots config_dir kwargs w')
       = retention `min` (length (snapshots config_dir kwargs w)
                          + (if 0 <? retention then 1 else 0))
    /\ oldest_first removed (snapshots config_dir kwargs w')
    /\ listdir (files w') D = Return (snapshots config_dir kwargs w').
Proof.
  intros Hr Hv Hu Hrun.
  apply WritePipeline.run_outputs_inv in Hrun as (w1 & Hb & Hloop).
  destruct (backup_playlists_spec _ _ _ Hr Hv Hb)
    as (kept & removed & Hp & Hk & Hl & Ho & Hst & _).
  assert (Hframe : forall k,
    (forall rel, rel <> [] -> Fs.components (path settings_dict) ++ rel <> k) ->
    files w' !! k = files w1 !! k).
  { intros k Hk'.
    pose proof (write_playlists_frame (playlists settings_dict (files w))
                  (songs_dict kwargs) w1 k (playlists_under_root (files w)) Hk') as H.
    by rewrite Hloop in H. }
  assert (Hch : snapshots config_dir kwargs w' ≡ₚ kept).
  { rewrite <- Hk. apply children_Permutation. intros n _.
    rewrite Hframe; [done |]. intros rel Hrel.
    by apply (not_under_backup_root rel Hu Hrel). }
  exists removed. unfold snapshots in *. split; [by rewrite Hch |].
  split; [by rewrite Hch |].
  split; [by apply (oldest_first_Permutation _ kept) |].
  unfold listdir. rewrite (stat_backup_dir_ext _ (files w1)), Hst; [done |].
  apply Hframe. intros rel Hrel. by apply (not_under_backup_root rel Hu Hrel).
Qed.

End backups.

(** *** A sequence of jobs *)

Section jobs.

Variable tags : filesystem -> string -> outcome SongRecord.
Variable filter_list : list string -> string -> list string.
Variable config_dir : string.
Variable settings_dict : Settings.
Variable kwargs : Kwargs.
Variable retention : nat.

Hypothesis Houtputs : component kwargs = "outputs".
Hypothesis Hretention :
  dict_get retention_dict (s_retention settings_dict) = Return retention.
Hypothesis Hpositive : 0 < retention.
Hypothesis Hapart :
  is_under (Fs.components (path settings_dict)) (backup_root config_dir kwargs)
  = false.

Lemma run_jobs_spec (clock : list string) (w w' : world) :
  Forall (fun now => valid_name (runtime now) = true) clock ->
  run_jobs tags filter_list config_dir settings_dict kwargs clock w = (Return tt, w') ->
  exists removed,
    snapshots config_dir kwargs w ++ runtimes clock
      ≡ₚ snapshots config_dir kwargs w' ++ removed
    /\ oldest_first removed (snapshots config_dir kwargs w')
    /\ (clock <> [] ->
        length (snapshots config_dir kwargs w')
        = retention `min` (length (snapshots config_dir kwargs w) + length clock)
        /\ listdir (files w') (backup_dir config_dir kwargs)
           = Return (snapshots config_dir kwargs w'))
    /\ (clock = [] -> w' = w).
Proof.
  intros Hvalid. revert w. induction Hvalid as [|now rest Hnow _ IH]; intros w Hrun.
  - injection Hrun as <-. exists []. rewrite !app_nil_r.
    split; [done |]. split; [by intros x y ?%not_elem_of_nil |]. done.
  - cbn [run_jobs] in Hrun. unfold mbind at 1, M_bind at 1 in Hrun.
    rewrite WritePipeline.run_outputs_eq in Hrun by done.
    unfold mbind at 1, M_bind at 1 in Hrun.
    destruct (run_outputs _ _ _ now w) as [[[]|e] w1] eqn:Hone; [| done].
    cbn [mret M_ret] in Hrun.
    apply (run_outputs_backups _ _ _ _ retention) in Hone
      as (removed1 & Hp1 & Hl1 & Ho1 & Hls1); [| done | done | done].
    apply Nat.ltb_lt in Hpositive as Hpos. rewrite Hpos in *.
    destruct (IH _ Hrun) as (removed2 & Hp2 & Ho2 & Hne2 & Hnil2).
    destruct rest as [|now' rest'].
    { (* the last job *)
      rewrite (Hnil2 eq_refl) in *. exists removed1.
      split; [done |]. split; [done |]. split; [| done].
      intros _. split; [| done]. rewrite Hl1. cbn [length]. lia. }
    destruct Hne2 as [Hl2 Hls2]; [done |].
    set (S0 := snapshots config_dir kwargs w) in *.
    set (S1 := snapshots config_dir kwargs w1) in *.
    set (S2 := snapshots config_dir kwargs w') in *.
    set (rest := now' :: rest') in *.
    exists (removed2 ++ removed1). split; [| split; [| split; [| done]]].
    + cbn [runtimes map]. fold (runtimes rest).
      rewrite cons_middle, app_assoc, Hp1.
      rewrite <- app_assoc, (Permutation_app_comm removed1), app_assoc, Hp2.
      by rewrite <- app_assoc.
    + intros x y [Hx | Hx]%elem_of_app Hy; [by apply Ho2 |].
      destruct (decide (y ∈ S1)) as [Hy1 | Hy1]; [by apply Ho1 |].
      assert (HS1 : length S1 = retention).
      { apply Permutation_length in Hp1. rewrite !length_app in Hp1.
        cbn [length] in Hp1. destruct removed1; [by apply not_elem_of_nil in Hx |].
        cbn [length] in Hp1. lia. }
      destruct (decide (Exists (fun z => z ∈ removed2) S1)) as [Hex | Hex].
      * apply Exists_exists in Hex as (z & Hz1 & Hz2).
        apply (leb_trans _ (backup_time z)); [by apply Ho1 | by apply Ho2].
      * exfalso. apply not_Exists_Forall in Hex; [| apply _].
        assert (Hsub : y :: S1 ⊆+ S2).
        { apply NoDup_submseteq.
          - apply NoDup_cons. split; [done | apply NoDup_children].
          - intros z [-> | Hz]%elem_of_cons; [done |].
            assert (Hz' : z ∈ S2 ++ removed2)
              by (rewrite <- Hp2; apply elem_of_app; by left).
            apply elem_of_app in Hz' as [? | Hz']; [done |].
            rewrite Forall_forall in Hex. by destruct (Hex z Hz). }
        apply submseteq_length in Hsub. cbn [length] in Hsub. lia.
    + intros _. split; [| done]. rewrite Hl2, Hl1. cbn [length]. lia.
Qed.

End jobs.

(** C6: after a sequence of at least three successful jobs of component
    "outputs" with retention "3 Backups" the backups folder lists exactly
    three snapshots, and they are the three most recent by timestamp of
    all the snapshots that were there at the start or were taken since:
    the others were removed, and none of those is more recent than one
    that remains.  (The timestamps name a directory each, and the
    backups folder does not lie inside the playlist directory.) *)
Theorem retention_three_keeps_three_most_recent
  (tags : filesystem -> string -> outcome SongRecord)
  (filter_list : list string -> string -> list string)
  (config_dir : string) (settings_dict : Settings) (kwargs : Kwargs)
  (clock : list string) (w : world) :
  component kwargs = "outputs" ->
  s_retention settings_dict = "3 Backups" ->
  is_under (Fs.components (path settings_dict)) (backup_root config_dir kwargs)
  = false ->
  forallb (fun now => valid_name (runtime now)) clock = true ->
  3 <= length clock ->
  (run_jobs tags filter_list config_dir settings_dict kwargs clock w).1
  = Return tt ->
  let w' := (run_jobs tags filter_list config_dir settings_dict kwargs clock w).2 in
  exists removed,
    listdir (files w') (backup_dir config_dir kwargs)
    = Return (snapshots config_dir kwargs w')
    /\ length (snapshots config_dir kwargs w') = 3
    /\ snapshots config_dir kwargs w ++ runtimes clock
       ≡ₚ snapshots config_dir kwargs w' ++ removed
    /\ oldest_first removed (snapshots config_dir kwargs w').
Proof.
  intros Hc Hr Hu Hv Hlen Hrun w'. subst w'.
  destruct (run_jobs _ _ _ _ _ clock w) as [o w'] eqn:E. cbn [fst snd] in *.
  subst o.
  assert (Hd : dict_get retention_dict (s_retention settings_dict) = Return 3)
    by by rewrite Hr.
  assert (Hvalid : Forall (fun now => valid_name (runtime now) = true) clock).
  { apply Forall_forall. intros now Hnow. rewrite forallb_forall in Hv.
    by apply Hv, list_elem_of_In. }
  destruct (run_jobs_spec tags filter_list config_dir settings_dict kwargs 3
              Hc Hd ltac:(lia) Hu clock w w' Hvalid E)
    as (removed & Hp & Ho & Hne & _).
  destruct Hne as [Hl Hls]; [intros ->; cbn [length] in Hlen; lia |].
  exists removed. split; [done |]. split; [lia |]. done.
Qed.

Lemma retention_three_keeps_three_most_recent_witness :
  length (snapshots "/config" (Sample.outputs [0; 1])
            (run_jobs Sample.tags Sample.accept_all "/config"
               (Sample.settings "No" "3 Backups") (Sample.outputs [0; 1])
               ["2020-06-01 12:00:00"; "2020-06-02 12:00:00"; "2020-06-03 12:00:00"]
               {| files := Sample.library_with_backups;
                  objects := Sample.incoming |}).2) = 3.
Proof.
  assert (H1 : component (Sample.outputs [0; 1]) = "outputs") by reflexivity.
  assert (H2 : s_retention (Sample.settings "No" "3 Backups") = "3 Backups")
    by reflexivity.
  assert (H3 : is_under (Fs.components (path (Sample.settings "No" "3 Backups")))
                 (backup_root "/config" (Sample.outputs [0; 1])) = false)
    by (vm_compute; reflexivity).
  assert (H4 : forallb (fun now => valid_name (runtime now))
                 ["2020-06-01 12:00:00"; "2020-06-02 12:00:00";
                  "2020-06-03 12:00:00"] = true)
    by (vm_compute; reflexivity).
  assert (H5 : 3 <= length ["2020-06-01 12:00:00"; "2020-06-02 12:00:00";
                            "2020-06-03 12:00:00"]) by (simpl; lia).
  assert (H6 : (run_jobs Sample.tags Sample.accept_all "/config"
                  (Sample.settings "No" "3 Backups") (Sample.outputs [0; 1])
                  ["2020-06-01 12:00:00"; "2020-06-02 12:00:00";
                   "2020-06-03 12:00:00"]
                  {| files := Sample.library_with_backups;
                     objects := Sample.incoming |}).1 = Return tt)
    by (vm_compute; reflexivity).
  destruct (retention_three_keeps_three_most_recent _ _ _ _ _ _ _ H1 H2 H3 H4 H5 H6)
    as (removed & _ & H & _).
  exact H.
Defined.

(** *** Retention zero *)

Lemma prune_only_removes (config_dir : string) (kwargs : Kwargs)
  (fuel retention : nat) (backups times : list string) (w : world)
  (k : list string) (v : node) :
  files (prune config_dir kwargs fuel retention backups times w).2 !! k = Some v ->
  files w !! k = Some v.
Proof.
  revert backups times w. induction fuel as [|fuel IH]; intros backups times w;
    cbn [prune]; destruct (retention <? length backups); try done.
  destruct times as [|t rest]; [done |].
  destruct (py_index _ _) as [i|]; [| done].
  destruct (backups !! i) as [b|]; [| done].
  unfold mbind, M_bind, fs_update.
  destruct (rmtree (files w) _) as [fs1|e] eqn:Hrm; [| done].
  intros H%IH. cbn [files] in H. rewrite (rmtree_lookup _ _ _ Hrm) in H.
  by destruct (is_under _ k).
Qed.

Lemma makedirs_backup_dir_exists (config_dir : string) (kwargs : Kwargs)
  (fs : filesystem) :
  stat fs (backup_dir config_dir kwargs) = Return Dir ->
  makedirs fs (OsPath.dirname (backup_dir config_dir kwargs))
  = Raise FileExistsError.
Proof.
  intros Hst. rewrite stat_backup_dir in Hst. unfold makedirs.
  destruct (backup_dir_trailing_sep config_dir kwargs) as [Hs _].
  destruct (dirname_trailing_sep _ Hs) as [Hk ->]. rewrite Hk.
  fold (backup_root config_dir kwargs).
  destruct (backup_root config_dir kwargs) as [|x k]; [done |].
  by destruct (fs !! (x :: k)) as [[|c]|].
Qed.

Lemma make_backup_dir_creates (config_dir : string) (kwargs : Kwargs) (w : world)
  (k : list string) (v : node) :
  files (make_backup_dir config_dir kwargs w).2 !! k = Some v ->
  files w !! k = Some v
  \/ (v = Dir /\ k ∈ ancestors_and_self (backup_root config_dir kwargs)).
Proof.
  unfold make_backup_dir, fs_update.
  destruct (makedirs (files w) _) as [fs0|e] eqn:Hmk.
  - cbn [snd files]. apply makedirs_lookup in Hmk as (_ & _ & ->).
    rewrite makedirs_backup_dir_key.
    destruct (files w !! k); [by left |]. case_bool_decide; [| done].
    intros [= <-]. by right.
  - destruct e; by left.
Qed.

Lemma snapshot_and_prune_no_copy (config_dir : string) (settings_dict : Settings)
  (kwargs : Kwargs) (now : string) (w : world) (k : list string) (v : node) :
  dict_get retention_dict (s_retention settings_dict) = Return 0 ->
  files (snapshot_and_prune config_dir settings_dict kwargs now w).2 !! k = Some v ->
  files w !! k = Some v.
Proof.
  intros Hd. unfold snapshot_and_prune, mbind, M_bind, lift. rewrite Hd.
  cbn [Nat.ltb Nat.leb]. unfold mret, M_ret, fs_query.
  destruct (listdir _ _) as [backups|e]; [| done]. apply prune_only_removes.
Qed.

(** C7: with retention "No Backups" the backup manager takes no snapshot
    and removes every snapshot of the backups folder.  It does not fail
    when the folder exists and holds directories only; when it returns,
    the folder lists nothing, every earlier snapshot is gone, and
    nothing was created but, at most, the folder itself; the same
    listing is found after the whole job (when the backups folder does
    not lie inside the playlist directory). *)
Theorem no_backups_deletes_every_snapshot
  (tags : filesystem -> string -> outcome SongRecord)
  (filter_list : list string -> string -> list string)
  (config_dir : string) (settings_dict : Settings) (kwargs : Kwargs)
  (now : string) (w : world) :
  component kwargs = "outputs" ->
  s_retention settings_dict = "No Backups" ->
  (stat (files w) (backup_dir config_dir kwargs) = Return Dir ->
   (forall n, n ∈ snapshots config_dir kwargs w ->
      files w !! (backup_root config_dir kwargs ++ [n]) = Some Dir) ->
   (backup_playlists config_dir settings_dict kwargs now w).1 = Return tt)
  /\ ((backup_playlists config_dir settings_dict kwargs now w).1 = Return tt ->
      let w1 := (backup_playlists config_dir settings_dict kwargs now w).2 in
      listdir (files w1) (backup_dir config_dir kwargs) = Return []
      /\ (forall n, n ∈ snapshots config_dir kwargs w ->
            files w1 !! (backup_root config_dir kwargs ++ [n]) = None)
      /\ (forall k v, files w1 !! k = Some v ->
            files w !! k = Some v
            \/ (v = Dir /\ k ∈ ancestors_and_self (backup_root config_dir kwargs))))
  /\ (is_under (Fs.components (path settings_dict)) (backup_root config_dir kwargs)
      = false ->
      (run tags filter_list config_dir settings_dict kwargs now w).1 = Return None ->
      listdir (files (run tags filter_list config_dir settings_dict kwargs now w).2)
        (backup_dir config_dir kwargs) = Return []).
Proof.
  intros Hc Hr.
  assert (Hd : dict_get retention_dict (s_retention settings_dict) = Return 0)
    by by rewrite Hr.
  split; [| split].
  - intros Hst Hdirs. unfold backup_playlists, mbind, M_bind.
    unfold make_backup_dir, fs_update.
    rewrite makedirs_backup_dir_exists by done.
    unfold snapshot_and_prune, mbind, M_bind, lift. rewrite Hd. cbn [Nat.ltb Nat.leb].
    unfold mret, M_ret, fs_query, listdir. rewrite Hst.
    fold (backup_root config_dir kwargs).
    change (map (fun b => replace b "-" "") ?l) with (backup_time <$> l).
    apply prune_succeeds.
    + by intros n [? _]%elem_of_children.
    + done.
    + apply NoDup_children.
  - intros Hrun w1. subst w1.
    destruct (backup_playlists _ _ _ now w) as [o w1] eqn:E. cbn [fst snd] in *.
    subst o.
    destruct (backup_playlists_spec _ _ _ _ 0 _ _ Hd ltac:(lia) E)
      as (kept & removed & Hp & Hk & Hl & Ho & Hst & _).
    destruct kept; [| cbn in Hl; lia]. apply Permutation_nil_r in Hk.
    split; [| split].
    + unfold listdir. rewrite Hst. fold (backup_root config_dir kwargs).
      by rewrite Hk.
    + intros n [Hv _]%elem_of_children.
      destruct (files w1 !! _) as [v|] eqn:Ev; [| done].
      assert (n ∈ children (files w1) (backup_root config_dir kwargs))
        by (apply elem_of_children; eauto).
      rewrite Hk in *. by apply not_elem_of_nil in H.
    + intros k v Hkv.
      assert (Hw1 : w1 = (backup_playlists config_dir settings_dict kwargs now w).2)
        by by rewrite E.
      rewrite Hw1 in Hkv. clear E Hw1. revert Hkv.
      unfold backup_playlists, mbind, M_bind.
      pose proof (make_backup_dir_creates config_dir kwargs w k v) as Hmk.
      destruct (make_backup_dir config_dir kwargs w) as [[[]|e] w0];
        cbn [snd] in *; [| done].
      intros Hkv. eapply Hmk, snapshot_and_prune_no_copy; done.
  - intros Hu Hrun. rewrite WritePipeline.run_outputs_eq in * by done.
    unfold mbind, M_bind in *.
    destruct (run_outputs _ _ _ now w) as [[[]|e] w'] eqn:E; [| done].
    cbn [mret M_ret snd].
    destruct (run_outputs_backups _ _ _ _ 0 _ _ Hd ltac:(lia) Hu E)
      as (removed & _ & Hl & _ & Hls).
    rewrite Hls. f_equal. by destruct (snapshots config_dir kwargs w').
Qed.

Lemma no_backups_deletes_every_snapshot_witness :
  length (snapshots "/config" (Sample.outputs [0; 1])
            {| files := Sample.library_with_backups; objects := Sample.incoming |}) = 4
  /\ listdir
       (files (backup_playlists "/config" (Sample.settings "No" "No Backups")
                 (Sample.outputs [0; 1]) "2020-06-01 12:00:00"
                 {| files := Sample.library_with_backups;
                    objects := Sample.incoming |}).2)
       (backup_dir "/config" (Sample.outputs [0; 1])) = Return [].
Proof.
  assert (H1 : component (Sample.outputs [0; 1]) = "outputs") by reflexivity.
  assert (H2 : s_retention (Sample.settings "No" "No Backups") = "No Backups")
    by reflexivity.
  assert (H3 : (backup_playlists "/config" (Sample.settings "No" "No Backups")
                  (Sample.outputs [0; 1]) "2020-06-01 12:00:00"
                  {| files := Sample.library_with_backups;
                     objects := Sample.incoming |}).1 = Return tt)
    by (vm_compute; reflexivity).
  split; [vm_compute; reflexivity |].
  exact (proj1 (proj1 (proj2 (no_backups_deletes_every_snapshot
                  Sample.tags Sample.accept_all _ _ _ _ _ H1 H2)) H3)).
Defined.

End BackupManager.
